(** * figjam2pptx: node extraction and export serializers

    A shallow embedding of [src/code.ts] (the plugin side: paint
    normalisation, node extraction, the selection walker) and of
    [src/pptx-converter.ts] (the shape mapper, the XML serializer and its
    helpers), followed by the properties proved about them.

    Conventions of the embedding.
    - A JavaScript number is an IEEE 754 binary64 value: [spec_float] with
      precision 53 and maximal exponent 1024; [*] and [/] are the correctly
      rounded operations of [SpecFloat].
    - A JavaScript string is a [string]; the escaping code works one code
      unit at a time, so the alphabet does not matter.
    - An optional property is an [option]; reading a member of [undefined]
      throws, which the embedding records as [Throw (TypeError _)].
    - [console.log] and [figma.ui.postMessage] are recorded, in order, in a
      trace of [Effect]s. *)

From Stdlib Require Import ZArith NArith Lia List String Ascii Bool SpecFloat.
From Stdlib Require Import Hexadecimal HexadecimalString HexadecimalN.
Import ListNotations.
Open Scope Z_scope.
Open Scope string_scope.
Set Warnings "-register-all".

(** ** JavaScript primitives *)

Module JS.

Definition number := spec_float.
Definition prec : Z := 53.
Definition emax : Z := 1024.

(** The number denoted by an integer literal. *)
Definition ofZ (k : Z) : number := binary_normalize prec emax k 0 false.

Definition mul : number -> number -> number := SFmul prec emax.
Definition div : number -> number -> number := SFdiv prec emax.
Definition le : number -> number -> bool := SFleb.
Definition valid (x : number) : bool := valid_binary prec emax x.

(** The number denoted by the decimal literal [n/d] with [d] a power of
    ten, e.g. [decimal 39 100] for [0.39]: the double nearest to it. *)
Definition decimal (n d : Z) : number := div (ofZ n) (ofZ d).

(** [floor (m * 2^e + 1/2)] *)
Definition round_half_up (m e : Z) : Z :=
  match e with
  | Zneg p => (2 * m + 2 ^ Zpos p) / 2 ^ (Zpos p + 1)
  | _ => m * 2 ^ e
  end.

(** [Math.round]: the nearest integer, ties towards +infinity; NaN, the
    infinities and the zeros are returned unchanged and a negative
    argument that rounds to zero gives -0. *)
Definition Math_round (x : number) : number :=
  match x with
  | S754_finite s m e =>
      binary_normalize prec emax (round_half_up (cond_Zopp s (Zpos m)) e) 0 s
  | _ => x
  end.

(** The integer a number is equal to, if any. *)
Definition toInteger (x : number) : option Z :=
  match x with
  | S754_zero _ => Some 0
  | S754_finite s m e =>
      match e with
      | Zneg p => if (Zpos m mod 2 ^ Zpos p =? 0)%Z
                  then Some (cond_Zopp s (Zpos m / 2 ^ Zpos p)) else None
      | _ => Some (cond_Zopp s (Zpos m * 2 ^ e))
      end
  | _ => None
  end.

(** [ToBoolean] on numbers and on strings. *)
Definition truthy (x : number) : bool :=
  match x with
  | S754_zero _ | S754_nan => false
  | _ => true
  end.

Definition truthyString (s : string) : bool :=
  match s with
  | EmptyString => false
  | _ => true
  end.

(** [x || d] on numbers. *)
Definition orDefault (x d : number) : number := if truthy x then x else d.

(** [s.replace(/c/g, by)] for a one-character pattern [c] and a
    replacement text without [$]. *)
Fixpoint replaceAll (c : ascii) (by_ : string) (s : string) : string :=
  match s with
  | EmptyString => EmptyString
  | String a rest =>
      if Ascii.eqb a c then by_ ++ replaceAll c by_ rest
      else String a (replaceAll c by_ rest)
  end.

(** [s.repeat(n)] *)
Fixpoint repeat (s : string) (n : nat) : string :=
  match n with
  | O => EmptyString
  | S n' => s ++ repeat s n'
  end.

(** [s.startsWith(p)] *)
Definition startsWith (s p : string) : bool := String.prefix p s.

(** A value that is a string or a member inherited from
    [Object.prototype], named by its key. *)
Inductive Value :=
| Str (s : string)
| Inherited (key : string).

(** What the engine decides: the decimal text of a number
    ([Number::toString]) and the text of an inherited member
    ([String(v)]). *)
Record Engine := {
  numberToString : number -> string;
  inheritedToString : string -> string
}.

Inductive JsError := TypeError (message : string).

(** [String(error)] *)
Definition errorToString (e : JsError) : string :=
  match e with
  | TypeError m => "TypeError: " ++ m
  end.

Inductive Res (A : Type) :=
| Ok (a : A)
| Throw (e : JsError).
Arguments Ok {A} a.
Arguments Throw {A} e.

Definition bindRes {A B} (m : Res A) (k : A -> Res B) : Res B :=
  match m with
  | Ok a => k a
  | Throw e => Throw e
  end.

(** [l.map(f)] for a callback that may throw. *)
Fixpoint mapRes {A B} (f : A -> Res B) (l : list A) : Res (list B) :=
  match l with
  | [] => Ok []
  | a :: rest =>
      bindRes (f a) (fun b => bindRes (mapRes f rest) (fun bs => Ok (b :: bs)))
  end.

Definition nl : string := String (ascii_of_nat 10) EmptyString.
Definition dq : string := String (ascii_of_nat 34) EmptyString.

End JS.
Import JS.

(** ** [src/code.ts] *)

Module CodeTs.

(** *** Host objects, as the plugin API hands them over *)

Record RGB := { r : number; g : number; b : number }.
Record RGBA := { sr : number; sg : number; sb : number; sa : number }.
Record ColorStop := { position : number; color : RGBA }.

Record HostPaint := {
  paint_type : string;
  paint_visible : option bool;
  paint_opacity : option number;
  paint_color : option RGB;
  paint_imageHash : option string;
  paint_scaleMode : option string;
  paint_gradientStops : option (list ColorStop)
}.

(** [readonly Paint[] | typeof figma.mixed] *)
Inductive HostPaints :=
| Mixed
| Paints (l : list HostPaint).

Record Vector := { vx : number; vy : number }.
Record ConnectorEndpoint := {
  endpoint_position : option Vector;
  endpoint_endpointNodeId : option string
}.
Record TextSublayer := { characters : string }.

Inductive SceneNode := mkSceneNode {
  node_id : string;
  node_name : string;
  node_type : string;
  node_x : number;
  node_y : number;
  node_width : option number;
  node_height : option number;
  node_rotation : option number;
  node_visible : bool;
  node_cornerRadius : option number;
  node_fills : option HostPaints;
  node_strokes : option HostPaints;
  node_strokeWeight : option number;
  node_pointCount : option number;
  node_shapeType : option string;
  node_text : option TextSublayer;
  node_characters : option string;
  node_connectorStart : option ConnectorEndpoint;
  node_connectorEnd : option ConnectorEndpoint;
  node_children : option (list SceneNode)
}.

(** [figma.currentPage] *)
Record PageNode := {
  page_selection : list SceneNode;
  page_name : string;
  page_width : number;
  page_height : number
}.

(** *** Extracted data *)

Inductive Paint :=
| Solid (color : RGB) (opacity : number)
| Image (imageHash : option string) (scaleMode : option string) (opacity : number)
| Gradient (gradientType : string) (gradientStops : list ColorStop) (opacity : number)
| Unknown.

(** The [type] member of an extracted paint. *)
Definition paintType (p : Paint) : string :=
  match p with
  | Solid _ _ => "solid"
  | Image _ _ _ => "image"
  | Gradient _ _ _ => "gradient"
  | Unknown => "unknown"
  end.

Record Endpoint := {
  ep_x : number;
  ep_y : number;
  ep_endpointNodeId : option string
}.

Inductive ExtractedNodeData := mkExtracted {
  id : string;
  name : string;
  type : string;
  x : number;
  y : number;
  width : number;
  height : number;
  rotation : number;
  visible : bool;
  fills : option (list Paint);
  strokes : option (list Paint);
  strokeWeight : option number;
  text : option string;
  cornerRadius : option number;
  shapeType : option string;
  connectorStart : option Endpoint;
  connectorEnd : option Endpoint;
  children : option (list ExtractedNodeData)
}.

Record PageInfo := {
  pi_name : string;
  pi_width : number;
  pi_height : number
}.

Inductive UIMessage :=
| MsgError (message : string)
| MsgDataReady (data : list ExtractedNodeData) (pageInfo : PageInfo).

Inductive Effect :=
| ConsoleLog (line : string)
| PostMessage (msg : UIMessage)
| ClosePlugin.

(** A computation that logs and may throw. *)
Definition M (A : Type) : Type := list Effect * Res A.

Definition ret {A} (a : A) : M A := ([], Ok a).
Definition bind {A B} (m : M A) (k : A -> M B) : M B :=
  match m with
  | (t, Ok a) => let (t', r) := k a in ((t ++ t')%list, r)
  | (t, Throw e) => (t, Throw e)
  end.
Definition lift {A} (m : Res A) : M A := ([], m).
Definition log (line : string) : M unit := ([ConsoleLog line], Ok tt).

(** *** Paint normalisation *)

(** [Math.round(c * 255)], the expression applied to every colour
    channel. *)
Definition scaleChannel (c : number) : number := Math_round (mul c (ofZ 255)).

(** [fill.opacity !== undefined ? fill.opacity : 1] *)
Definition opacityOrOne (o : option number) : number :=
  match o with
  | Some v => v
  | None => ofZ 1
  end.

Definition undefinedMember (prop : string) : JsError :=
  TypeError ("Cannot read properties of undefined (reading '" ++ prop ++ "')").

(** The callback of [.map] in [extractFills]. *)
Definition extractPaint (fill : HostPaint) : Res Paint :=
  if paint_type fill =? "SOLID" then
    match paint_color fill with
    | None => Throw (undefinedMember "r")
    | Some c =>
        Ok (Solid {| r := scaleChannel (r c);
                     g := scaleChannel (g c);
                     b := scaleChannel (b c) |}
                  (opacityOrOne (paint_opacity fill)))
    end
  else if paint_type fill =? "IMAGE" then
    Ok (Image (paint_imageHash fill) (paint_scaleMode fill)
              (opacityOrOne (paint_opacity fill)))
  else if startsWith (paint_type fill) "GRADIENT" then
    match paint_gradientStops fill with
    | None => Throw (undefinedMember "map")
    | Some stops =>
        Ok (Gradient (paint_type fill)
              (map (fun stop =>
                      {| position := position stop;
                         color := {| sr := scaleChannel (sr (color stop));
                                     sg := scaleChannel (sg (color stop));
                                     sb := scaleChannel (sb (color stop));
                                     sa := sa (color stop) |} |}) stops)
              (opacityOrOne (paint_opacity fill)))
    end
  else Ok Unknown.

(** [fill.visible !== false] *)
Definition paintShown (fill : HostPaint) : bool :=
  match paint_visible fill with
  | Some false => false
  | _ => true
  end.

Definition extractFills (fills : option HostPaints) : Res (list Paint) :=
  match fills with
  | None => Ok []
  | Some Mixed => Ok []
  | Some (Paints l) => mapRes extractPaint (filter paintShown l)
  end.

Definition extractStrokes (strokes : option HostPaints) : Res (list Paint) :=
  extractFills strokes.

(** *** Node extraction *)

Definition emptyVariant (i n t : string) (px py w h rot : number) (v : bool)
  : ExtractedNodeData :=
  {| id := i; name := n; type := t; x := px; y := py;
     width := w; height := h; rotation := rot; visible := v;
     fills := None; strokes := None; strokeWeight := None; text := None;
     cornerRadius := None; shapeType := None;
     connectorStart := None; connectorEnd := None; children := None |}.

(** The [baseData] object literal of [extractNodeData]. *)
Definition baseDataOf (node : SceneNode) : ExtractedNodeData :=
  emptyVariant (node_id node) (node_name node) (node_type node)
    (node_x node) (node_y node)
    (match node_width node with Some w => w | None => ofZ 0 end)
    (match node_height node with Some h => h | None => ofZ 0 end)
    (match node_rotation node with Some a => a | None => ofZ 0 end)
    (node_visible node).

Definition withFills (d : ExtractedNodeData) (v : list Paint) : ExtractedNodeData :=
  mkExtracted (id d) (name d) (type d) (x d) (y d) (width d) (height d)
    (rotation d) (visible d) (Some v) (strokes d) (strokeWeight d) (text d)
    (cornerRadius d) (shapeType d) (connectorStart d) (connectorEnd d) (children d).
Definition withStrokes (d : ExtractedNodeData) (v : list Paint) : ExtractedNodeData :=
  mkExtracted (id d) (name d) (type d) (x d) (y d) (width d) (height d)
    (rotation d) (visible d) (fills d) (Some v) (strokeWeight d) (text d)
    (cornerRadius d) (shapeType d) (connectorStart d) (connectorEnd d) (children d).
Definition withStrokeWeight (d : ExtractedNodeData) (v : option number) : ExtractedNodeData :=
  mkExtracted (id d) (name d) (type d) (x d) (y d) (width d) (height d)
    (rotation d) (visible d) (fills d) (strokes d) v (text d)
    (cornerRadius d) (shapeType d) (connectorStart d) (connectorEnd d) (children d).
Definition withText (d : ExtractedNodeData) (v : option string) : ExtractedNodeData :=
  mkExtracted (id d) (name d) (type d) (x d) (y d) (width d) (height d)
    (rotation d) (visible d) (fills d) (strokes d) (strokeWeight d) v
    (cornerRadius d) (shapeType d) (connectorStart d) (connectorEnd d) (children d).
Definition withCornerRadius (d : ExtractedNodeData) (v : option number) : ExtractedNodeData :=
  mkExtracted (id d) (name d) (type d) (x d) (y d) (width d) (height d)
    (rotation d) (visible d) (fills d) (strokes d) (strokeWeight d) (text d)
    v (shapeType d) (connectorStart d) (connectorEnd d) (children d).
Definition withShapeType (d : ExtractedNodeData) (v : option string) : ExtractedNodeData :=
  mkExtracted (id d) (name d) (type d) (x d) (y d) (width d) (height d)
    (rotation d) (visible d) (fills d) (strokes d) (strokeWeight d) (text d)
    (cornerRadius d) v (connectorStart d) (connectorEnd d) (children d).
Definition withConnector (d : ExtractedNodeData) (s e : Endpoint) : ExtractedNodeData :=
  mkExtracted (id d) (name d) (type d) (x d) (y d) (width d) (height d)
    (rotation d) (visible d) (fills d) (strokes d) (strokeWeight d) (text d)
    (cornerRadius d) (shapeType d) (Some s) (Some e) (children d).
Definition withChildren (d : ExtractedNodeData) (v : list ExtractedNodeData)
  : ExtractedNodeData :=
  mkExtracted (id d) (name d) (type d) (x d) (y d) (width d) (height d)
    (rotation d) (visible d) (fills d) (strokes d) (strokeWeight d) (text d)
    (cornerRadius d) (shapeType d) (connectorStart d) (connectorEnd d) (Some v).

Section WithEngine.
Variable engine : Engine.

Definition extractRectangleData (rect : SceneNode) (baseData : ExtractedNodeData)
  : Res ExtractedNodeData :=
  bindRes (extractFills (node_fills rect)) (fun fs =>
  bindRes (extractStrokes (node_strokes rect)) (fun ss =>
  Ok (withStrokeWeight
        (withStrokes (withFills (withCornerRadius baseData (node_cornerRadius rect)) fs) ss)
        (node_strokeWeight rect)))).

Definition extractEllipseData (ellipse : SceneNode) (baseData : ExtractedNodeData)
  : Res ExtractedNodeData :=
  bindRes (extractFills (node_fills ellipse)) (fun fs =>
  bindRes (extractStrokes (node_strokes ellipse)) (fun ss =>
  Ok (withStrokeWeight (withStrokes (withFills baseData fs) ss)
        (node_strokeWeight ellipse)))).

(** [`polygon-${polygon.pointCount}`] *)
Definition polygonShapeType (pointCount : option number) : string :=
  "polygon-" ++ match pointCount with
                | Some n => numberToString engine n
                | None => "undefined"
                end.

Definition extractPolygonData (polygon : SceneNode) (baseData : ExtractedNodeData)
  : Res ExtractedNodeData :=
  bindRes (extractFills (node_fills polygon)) (fun fs =>
  bindRes (extractStrokes (node_strokes polygon)) (fun ss =>
  Ok (withShapeType
        (withStrokeWeight (withStrokes (withFills baseData fs) ss)
           (node_strokeWeight polygon))
        (Some (polygonShapeType (node_pointCount polygon)))))).

Definition extractTextContent (textNode : option TextSublayer) : Res string :=
  match textNode with
  | Some t => Ok (characters t)
  | None => Throw (undefinedMember "characters")
  end.

Definition extractShapeWithTextData (shape : SceneNode) (baseData : ExtractedNodeData)
  : Res ExtractedNodeData :=
  bindRes (extractFills (node_fills shape)) (fun fs =>
  bindRes (extractStrokes (node_strokes shape)) (fun ss =>
  bindRes (extractTextContent (node_text shape)) (fun t =>
  Ok (withText
        (withStrokes (withFills (withShapeType baseData (node_shapeType shape)) fs) ss)
        (Some t))))).

Definition extractStickyData (sticky : SceneNode) (baseData : ExtractedNodeData)
  : Res ExtractedNodeData :=
  bindRes (extractFills (node_fills sticky)) (fun fs =>
  bindRes (extractTextContent (node_text sticky)) (fun t =>
  Ok (withText (withFills baseData fs) (Some t)))).

Definition extractTextData (textNode : SceneNode) (baseData : ExtractedNodeData)
  : Res ExtractedNodeData :=
  bindRes (extractFills (node_fills textNode)) (fun fs =>
  Ok (withFills (withText baseData (node_characters textNode)) fs)).

(** One endpoint object literal of [extractConnectorData]:
    [position?.x || 0], [position?.y || 0], [endpointNodeId]. *)
Definition extractEndpoint (e : option ConnectorEndpoint) (member : string)
  : Res Endpoint :=
  match e with
  | None => Throw (undefinedMember member)
  | Some ce =>
      Ok {| ep_x := match endpoint_position ce with
                    | Some p => orDefault (vx p) (ofZ 0)
                    | None => ofZ 0
                    end;
            ep_y := match endpoint_position ce with
                    | Some p => orDefault (vy p) (ofZ 0)
                    | None => ofZ 0
                    end;
            ep_endpointNodeId := endpoint_endpointNodeId ce |}
  end.

Definition extractConnectorData (connector : SceneNode) (baseData : ExtractedNodeData)
  : Res ExtractedNodeData :=
  bindRes (extractStrokes (node_strokes connector)) (fun ss =>
  bindRes (extractEndpoint (node_connectorStart connector) "position") (fun s =>
  bindRes (extractEndpoint (node_connectorEnd connector) "position") (fun e =>
  Ok (withConnector
        (withStrokeWeight (withStrokes baseData ss) (node_strokeWeight connector))
        s e)))).

Section Loop.
Variable extract : SceneNode -> M (option ExtractedNodeData).

(** The loop shared by [processSelection] and [extractContainerData]:
    extract each node in turn and push the results that are not
    null. *)
Fixpoint extractEach (nodes : list SceneNode) (acc : list ExtractedNodeData)
  : M (list ExtractedNodeData) :=
  match nodes with
  | [] => ret acc
  | node :: rest =>
      bind (extract node) (fun data =>
        extractEach rest (match data with
                          | Some d => (acc ++ [d])%list
                          | None => acc
                          end))
  end.

Definition extractContainerData (container : SceneNode)
  (baseData : ExtractedNodeData) : M ExtractedNodeData :=
  match node_children container with
  | None => lift (Throw (TypeError "container.children is not iterable"))
  | Some cs =>
      bind (extractEach cs []) (fun children => ret (withChildren baseData children))
  end.
End Loop.

Definition some {A} (m : Res A) : M (option A) :=
  lift (bindRes m (fun a => Ok (Some a))).

Fixpoint extractNodeData (node : SceneNode) : M (option ExtractedNodeData) :=
  let baseData := baseDataOf node in
  if node_type node =? "RECTANGLE" then some (extractRectangleData node baseData)
  else if node_type node =? "ELLIPSE" then some (extractEllipseData node baseData)
  else if node_type node =? "POLYGON" then some (extractPolygonData node baseData)
  else if node_type node =? "SHAPE_WITH_TEXT" then
    some (extractShapeWithTextData node baseData)
  else if node_type node =? "STICKY" then some (extractStickyData node baseData)
  else if node_type node =? "TEXT" then some (extractTextData node baseData)
  else if node_type node =? "CONNECTOR" then some (extractConnectorData node baseData)
  else if (node_type node =? "GROUP") || (node_type node =? "FRAME") then
    bind (extractContainerData extractNodeData node baseData)
         (fun data => ret (Some data))
  else
    bind (log ("Unsupported node type: " ++ node_type node))
         (fun _ => ret (Some baseData)).

(** *** The selection walker *)

Definition processSelection (page : PageNode) : list Effect :=
  let selection := page_selection page in
  match selection with
  | [] =>
      [PostMessage (MsgError "Please select at least one object to export")]
  | _ =>
      match extractEach extractNodeData selection [] with
      | (t, Ok extractedData) =>
          (t ++ [PostMessage
                  (MsgDataReady extractedData
                     {| pi_name := page_name page;
                        pi_width := page_width page;
                        pi_height := page_height page |})])%list
      | (t, Throw error) =>
          (t ++ [PostMessage
                  (MsgError ("Error processing selection: " ++ errorToString error))])%list
      end
  end.

(** [figma.ui.onmessage] *)
Definition onmessage (msgType : string) (page : PageNode) : list Effect :=
  if msgType =? "process-selection" then processSelection page
  else if msgType =? "close" then [ClosePlugin]
  else [].

End WithEngine.

End CodeTs.

(** ** [src/pptx-converter.ts] *)

Module PptxConverter.
Import CodeTs.

Record Point := { px : number; py : number }.
Record Size := { sw : number; sh : number }.

Record PPTXFill := {
  fill_type : string;
  fill_color : option RGB;
  fill_opacity : option number;
  fill_gradientStops : option (list ColorStop)
}.

Record PPTXStroke := {
  stroke_color : RGB;
  stroke_width : number;
  stroke_opacity : option number
}.

Record Properties := {
  prop_cornerRadius : option number;
  prop_shapeType : option string
}.

Record PPTXShape := {
  shape_type : Value;
  shape_position : Point;
  shape_size : Size;
  shape_rotation : number;
  shape_fill : option PPTXFill;
  shape_stroke : option PPTXStroke;
  shape_text : option string;
  shape_properties : option Properties
}.

(** *** [mapNodeTypeToPPTX] *)

(** The object literal [mapping]. *)
Definition mapping : list (string * string) :=
  [ ("RECTANGLE", "rectangle");
    ("ELLIPSE", "ellipse");
    ("POLYGON", "polygon");
    ("SHAPE_WITH_TEXT", "shape");
    ("STICKY", "textbox");
    ("TEXT", "text");
    ("CONNECTOR", "line");
    ("GROUP", "group");
    ("FRAME", "frame");
    ("LINE", "line") ].

(** The members every object literal inherits from [Object.prototype];
    each is a function or an object, hence truthy. *)
Definition objectPrototypeKeys : list string :=
  [ "constructor"; "hasOwnProperty"; "isPrototypeOf"; "propertyIsEnumerable";
    "toLocaleString"; "toString"; "valueOf"; "__proto__";
    "__defineGetter__"; "__defineSetter__"; "__lookupGetter__"; "__lookupSetter__" ].

Fixpoint ownProperty (table : list (string * string)) (key : string) : option string :=
  match table with
  | [] => None
  | (k, v) :: rest => if k =? key then Some v else ownProperty rest key
  end.

(** [mapping[nodeType] || 'shape'] *)
Definition mapNodeTypeToPPTX (nodeType : string) : Value :=
  match ownProperty mapping nodeType with
  | Some v => if truthyString v then Str v else Str "shape"
  | None =>
      if existsb (String.eqb nodeType) objectPrototypeKeys
      then Inherited nodeType
      else Str "shape"
  end.

(** *** [nodeToShape] *)

Definition nodeToShape (node : ExtractedNodeData) : PPTXShape :=
  {| shape_type := mapNodeTypeToPPTX (type node);
     shape_position := {| px := x node; py := y node |};
     shape_size := {| sw := width node; sh := height node |};
     shape_rotation := rotation node;
     shape_fill :=
       match fills node with
       | Some (fill :: _) =>
           match fill with
           | Solid c o =>
               Some {| fill_type := "solid"; fill_color := Some c;
                       fill_opacity := Some o; fill_gradientStops := None |}
           | Gradient _ stops o =>
               Some {| fill_type := "gradient"; fill_color := None;
                       fill_opacity := Some o; fill_gradientStops := Some stops |}
           | _ => None
           end
       | _ => None
       end;
     shape_stroke :=
       match strokes node, strokeWeight node with
       | Some (stroke :: _), Some w =>
           if truthy w then
             match stroke with
             | Solid c o =>
                 Some {| stroke_color := c; stroke_width := w;
                         stroke_opacity := Some o |}
             | _ => None
             end
           else None
       | _, _ => None
       end;
     shape_text :=
       match text node with
       | Some t => if truthyString t then Some t else None
       | None => None
       end;
     shape_properties :=
       let shapeTypeSet :=
         match shapeType node with
         | Some t => if truthyString t then Some t else None
         | None => None
         end in
       match cornerRadius node, shapeTypeSet with
       | None, None => None
       | cr, st => Some {| prop_cornerRadius := cr; prop_shapeType := st |}
       end |}.

(** The [output] object that [toJSON] hands to [JSON.stringify]. *)
Record ExportDocument := {
  doc_format : string;
  doc_version : string;
  doc_exportDate : string;
  doc_page : PageInfo;
  doc_shapes : list PPTXShape
}.

Definition toJSON_output (now : string) (nodes : list ExtractedNodeData)
  (pageInfo : PageInfo) : ExportDocument :=
  {| doc_format := "figjam2pptx";
     doc_version := "1.0.0";
     doc_exportDate := now;
     doc_page := {| pi_name := pi_name pageInfo;
                    pi_width := pi_width pageInfo;
                    pi_height := pi_height pageInfo |};
     doc_shapes := map nodeToShape nodes |}.

(** *** [escapeXML] and the XML serializer *)

Definition c_amp : ascii := "&"%char.
Definition c_lt : ascii := "<"%char.
Definition c_gt : ascii := ">"%char.
Definition c_quot : ascii := ascii_of_nat 34.
Definition c_apos : ascii := "'"%char.

(** The chain of five [.replace] calls. *)
Definition escapeString (str : string) : string :=
  replaceAll c_apos "&apos;"
    (replaceAll c_quot "&quot;"
       (replaceAll c_gt "&gt;"
          (replaceAll c_lt "&lt;"
             (replaceAll c_amp "&amp;" str)))).

Section WithEngine.
Variable engine : Engine.

Definition escapeXML (str : Value) : string :=
  match str with
  | Inherited key => inheritedToString engine key
  | Str s => escapeString s
  end.

Definition num (n : number) : string := numberToString engine n.

(** [name="value"] inside a template literal. *)
Definition attr (name_ value : string) : string := name_ ++ "=" ++ dq ++ value ++ dq.

Definition stopToXML (spaces : string) (stop : ColorStop) : string :=
  spaces ++ "      <stop " ++ attr "position" (num (position stop))
    ++ " " ++ attr "r" (num (sr (color stop)))
    ++ " " ++ attr "g" (num (sg (color stop)))
    ++ " " ++ attr "b" (num (sb (color stop)))
    ++ " " ++ attr "a" (num (sa (color stop))) ++ "/>" ++ nl.

Definition fillToXML (spaces : string) (node : ExtractedNodeData) : string :=
  match fills node with
  | Some (fill :: _) =>
      spaces ++ "  <fill>" ++ nl
      ++ match fill with
         | Solid c o =>
             spaces ++ "    <solid " ++ attr "r" (num (r c))
               ++ " " ++ attr "g" (num (g c))
               ++ " " ++ attr "b" (num (b c))
               ++ " " ++ attr "opacity" (num (orDefault o (ofZ 1))) ++ "/>" ++ nl
         | Gradient gradientType stops _ =>
             spaces ++ "    <gradient " ++ attr "type" gradientType ++ ">" ++ nl
               ++ String.concat "" (map (stopToXML spaces) stops)
               ++ spaces ++ "    </gradient>" ++ nl
         | _ => ""
         end
      ++ spaces ++ "  </fill>" ++ nl
  | _ => ""
  end.

(** [node.strokeWeight || 1] *)
Definition strokeWeightOrOne (w : option number) : number :=
  match w with
  | Some v => orDefault v (ofZ 1)
  | None => ofZ 1
  end.

Definition strokeToXML (spaces : string) (node : ExtractedNodeData) : string :=
  match strokes node with
  | Some (stroke :: _) =>
      spaces ++ "  <stroke " ++ attr "weight" (num (strokeWeightOrOne (strokeWeight node)))
        ++ ">" ++ nl
      ++ match stroke with
         | Solid c o =>
             spaces ++ "    <color " ++ attr "r" (num (r c))
               ++ " " ++ attr "g" (num (g c))
               ++ " " ++ attr "b" (num (b c))
               ++ " " ++ attr "opacity" (num (orDefault o (ofZ 1))) ++ "/>" ++ nl
         | _ => ""
         end
      ++ spaces ++ "  </stroke>" ++ nl
  | _ => ""
  end.

Definition textToXML (spaces : string) (node : ExtractedNodeData) : string :=
  match text node with
  | Some t =>
      if truthyString t
      then spaces ++ "  <text><![CDATA[" ++ t ++ "]]></text>" ++ nl
      else ""
  | None => ""
  end.

Definition shapeTypeSet (node : ExtractedNodeData) : option string :=
  match shapeType node with
  | Some t => if truthyString t then Some t else None
  | None => None
  end.

Definition propertiesToXML (spaces : string) (node : ExtractedNodeData) : string :=
  match cornerRadius node, shapeTypeSet node with
  | None, None => ""
  | cr, st =>
      spaces ++ "  <properties>" ++ nl
      ++ match cr with
         | Some c => spaces ++ "    <cornerRadius>" ++ num c ++ "</cornerRadius>" ++ nl
         | None => ""
         end
      ++ match st with
         | Some t =>
             spaces ++ "    <shapeType>" ++ escapeXML (Str t) ++ "</shapeType>" ++ nl
         | None => ""
         end
      ++ spaces ++ "  </properties>" ++ nl
  end.

(** The part of a shape element before its children. *)
Definition shapeHead (spaces : string) (node : ExtractedNodeData) : string :=
  spaces ++ "<shape>" ++ nl
  ++ spaces ++ "  <type>" ++ escapeXML (mapNodeTypeToPPTX (type node)) ++ "</type>" ++ nl
  ++ spaces ++ "  <id>" ++ escapeXML (Str (id node)) ++ "</id>" ++ nl
  ++ spaces ++ "  <name>" ++ escapeXML (Str (name node)) ++ "</name>" ++ nl
  ++ spaces ++ "  <geometry>" ++ nl
  ++ spaces ++ "    <position " ++ attr "x" (num (x node))
       ++ " " ++ attr "y" (num (y node)) ++ "/>" ++ nl
  ++ spaces ++ "    <size " ++ attr "width" (num (width node))
       ++ " " ++ attr "height" (num (height node)) ++ "/>" ++ nl
  ++ spaces ++ "    <rotation " ++ attr "degrees" (num (rotation node)) ++ "/>" ++ nl
  ++ spaces ++ "  </geometry>" ++ nl
  ++ fillToXML spaces node
  ++ strokeToXML spaces node
  ++ textToXML spaces node
  ++ propertiesToXML spaces node.

Fixpoint nodeToXML (node : ExtractedNodeData) (indent : nat) : string :=
  let spaces := repeat "  " indent in
  shapeHead spaces node
  ++ match children node with
     | Some (c :: cs) =>
         spaces ++ "  <group>" ++ nl
         ++ String.concat ""
              (map (fun child => nodeToXML child (indent + 2)) (c :: cs))
         ++ spaces ++ "  </group>" ++ nl
     | _ => ""
     end
  ++ spaces ++ "</shape>" ++ nl.

Definition toXML (now : string) (nodes : list ExtractedNodeData)
  (pageInfo : PageInfo) : string :=
  "<?xml " ++ attr "version" "1.0" ++ " " ++ attr "encoding" "UTF-8" ++ "?>" ++ nl
  ++ "<!-- FigJam to PowerPoint Export -->" ++ nl
  ++ "<presentation " ++ attr "xmlns" "http://schemas.figjam2pptx.com/presentation"
       ++ ">" ++ nl
  ++ "  <metadata>" ++ nl
  ++ "    <exportDate>" ++ now ++ "</exportDate>" ++ nl
  ++ "    <sourcePage>" ++ escapeXML (Str (pi_name pageInfo)) ++ "</sourcePage>" ++ nl
  ++ "    <objectCount>" ++ num (ofZ (Z.of_nat (List.length nodes)))
       ++ "</objectCount>" ++ nl
  ++ "  </metadata>" ++ nl
  ++ "  <slide " ++ attr "width" (num (pi_width pageInfo))
       ++ " " ++ attr "height" (num (pi_height pageInfo)) ++ ">" ++ nl
  ++ String.concat "" (map (fun node => nodeToXML node 2) nodes)
  ++ "  </slide>" ++ nl
  ++ "</presentation>".

End WithEngine.

(** *** [rgbToHex] *)

(** [x.toString(16)] for a non-negative integer [x]: its hexadecimal
    digits, in lower case and without leading zero. *)
Definition toString16 (x : N) : string := NilZero.string_of_uint (N.to_hex_uint x).

(** The callback of [.map] in [rgbToHex]. *)
Definition hexPair (x : N) : string :=
  let hex := toString16 x in
  if Nat.eqb (String.length hex) 1 then "0" ++ hex else hex.

(** [rgbToHex] on non-negative integers, which is what colour channels are
    after normalisation. *)
Definition rgbToHex (r g b : N) : string :=
  "#" ++ String.concat "" (map hexPair [r; g; b]).

End PptxConverter.

(** ** Definitions used in the statements *)

Module Spec.
Import CodeTs PptxConverter.

(** Round half away from zero, on the exact value of a finite number:
    the sign times [floor (|v| + 1/2)]. *)
Definition round_half_away_from_zero (v : number) : option Z :=
  match v with
  | S754_zero _ => Some 0
  | S754_finite s m e => Some (cond_Zopp s (round_half_up (Zpos m) e))
  | _ => None
  end.

(** A host colour channel: a double between 0 and 1. *)
Definition in_unit_interval (c : number) : Prop :=
  valid c = true /\ le (ofZ 0) c = true /\ le c (ofZ 1) = true.

(** The type tags [extractNodeData] has a case for. *)
Definition supportedTypes : list string :=
  [ "RECTANGLE"; "ELLIPSE"; "POLYGON"; "SHAPE_WITH_TEXT"; "STICKY"; "TEXT";
    "CONNECTOR"; "GROUP"; "FRAME" ].

Definition isSome {A} (o : option A) : bool :=
  match o with
  | Some _ => true
  | None => false
  end.

(** A host paint has the members of its kind. *)
Definition validPaint (p : HostPaint) : bool :=
  if paint_type p =? "SOLID" then isSome (paint_color p)
  else if paint_type p =? "IMAGE" then true
  else if startsWith (paint_type p) "GRADIENT" then isSome (paint_gradientStops p)
  else true.

Definition validPaints (ps : option HostPaints) : bool :=
  match ps with
  | Some (Paints l) => forallb validPaint l
  | _ => true
  end.

(** A host node has the object members of the variant its type tag
    names, and so have its paints and, for a container, its children. *)
Fixpoint structurallyValid (node : SceneNode) : bool :=
  if node_type node =? "RECTANGLE" then
    validPaints (node_fills node) && validPaints (node_strokes node)
  else if node_type node =? "ELLIPSE" then
    validPaints (node_fills node) && validPaints (node_strokes node)
  else if node_type node =? "POLYGON" then
    validPaints (node_fills node) && validPaints (node_strokes node)
  else if node_type node =? "SHAPE_WITH_TEXT" then
    validPaints (node_fills node) && validPaints (node_strokes node)
    && isSome (node_text node)
  else if node_type node =? "STICKY" then
    validPaints (node_fills node) && isSome (node_text node)
  else if node_type node =? "TEXT" then validPaints (node_fills node)
  else if node_type node =? "CONNECTOR" then
    validPaints (node_strokes node)
    && isSome (node_connectorStart node) && isSome (node_connectorEnd node)
  else if (node_type node =? "GROUP") || (node_type node =? "FRAME") then
    match node_children node with
    | Some cs => forallb structurallyValid cs
    | None => false
    end
  else true.

Definition isConsoleLog (e : Effect) : Prop :=
  match e with
  | ConsoleLog _ => True
  | _ => False
  end.

(** Extraction of node [n] returns the record [d]. *)
Definition extractsTo (engine : Engine) (n : SceneNode) (d : ExtractedNodeData)
  : Prop :=
  exists t, extractNodeData engine n = (t, Ok (Some d)).

(** The page metadata [processSelection] sends along. *)
Definition pageInfoOf (page : PageNode) : PageInfo :=
  {| pi_name := page_name page;
     pi_width := page_width page;
     pi_height := page_height page |}.

Definition noSelectionMessage : UIMessage :=
  MsgError "Please select at least one object to export".

(** The fill and the stroke record built from a first paint. *)
Definition fillOfPaint (p : Paint) : option PPTXFill :=
  match p with
  | Solid c o =>
      Some {| fill_type := "solid"; fill_color := Some c;
              fill_opacity := Some o; fill_gradientStops := None |}
  | Gradient _ stops o =>
      Some {| fill_type := "gradient"; fill_color := None;
              fill_opacity := Some o; fill_gradientStops := Some stops |}
  | _ => None
  end.

Definition strokeOfPaint (w : number) (p : Paint) : option PPTXStroke :=
  match p with
  | Solid c o => Some {| stroke_color := c; stroke_width := w; stroke_opacity := Some o |}
  | _ => None
  end.

(** The nine tags the specification lists for the shape mapper. *)
Definition nineTags : list string :=
  [ "RECTANGLE"; "ELLIPSE"; "POLYGON"; "SHAPE_WITH_TEXT"; "STICKY"; "TEXT";
    "CONNECTOR"; "GROUP"; "FRAME" ].

(** XML escaping of one character, and of a text character by
    character. *)
Definition escapeChar (c : ascii) : string :=
  if Ascii.eqb c c_amp then "&amp;"
  else if Ascii.eqb c c_lt then "&lt;"
  else if Ascii.eqb c c_gt then "&gt;"
  else if Ascii.eqb c c_quot then "&quot;"
  else if Ascii.eqb c c_apos then "&apos;"
  else String c EmptyString.

Fixpoint escapeEach (s : string) : string :=
  match s with
  | EmptyString => EmptyString
  | String c rest => escapeChar c ++ escapeEach rest
  end.

(** Every character of a text satisfies [P]. *)
Fixpoint allChars (P : ascii -> bool) (s : string) : bool :=
  match s with
  | EmptyString => true
  | String c rest => P c && allChars P rest
  end.

(** The characters that open or close markup or an attribute value. *)
Definition isMarkup (c : ascii) : bool :=
  Ascii.eqb c c_lt || Ascii.eqb c c_gt || Ascii.eqb c c_quot || Ascii.eqb c c_apos.

(** The characters [escapeXML] rewrites. *)
Definition isSpecial (c : ascii) : bool := Ascii.eqb c c_amp || isMarkup c.

(** A number that is an integer between 0 and 255. *)
Definition isByte (n : number) : Prop :=
  exists k, toInteger n = Some k /\ (0 <= k <= 255)%Z.

(** The value of the two hexadecimal digits at offset [i] of [s]. *)
Definition hexField (i : nat) (s : string) : option N :=
  match NilZero.uint_of_string (substring i 2 s) with
  | Some d => Some (N.of_hex_uint d)
  | None => None
  end.

(** The number of records in an extracted tree, and the number of host
    nodes extraction visits: a node and, below a Group or Frame, the nodes
    of its children. *)
Fixpoint extractedSize (d : ExtractedNodeData) : nat :=
  S (match children d with
     | Some ds => list_sum (map extractedSize ds)
     | None => 0
     end).

Fixpoint hostSize (n : SceneNode) : nat :=
  S (if (node_type n =? "GROUP") || (node_type n =? "FRAME")
     then match node_children n with
          | Some cs => list_sum (map hostSize cs)
          | None => 0
          end
     else 0).

(** *** The XML serializer with every inserted string escaped *)

(** The gradient type tags of the host API. *)
Definition hostGradientTypes : list string :=
  [ "GRADIENT_LINEAR"; "GRADIENT_RADIAL"; "GRADIENT_ANGULAR"; "GRADIENT_DIAMOND" ].

(** The mapped type of a tag, as a text: its table entry, or ["shape"]. *)
Definition mappedName (t : string) : string :=
  match ownProperty mapping t with
  | Some v => v
  | None => "shape"
  end.

Definition hostGradient (p : Paint) : bool :=
  match p with
  | Gradient t _ _ => existsb (String.eqb t) hostGradientTypes
  | _ => true
  end.

(** The tags of a node tree are tags the host can supply: no type tag is
    the name of a member inherited from [Object.prototype], and every
    gradient fill has one of the host's four gradient types. *)
Fixpoint tagsFromHost (node : ExtractedNodeData) : bool :=
  negb (existsb (String.eqb (type node)) objectPrototypeKeys)
  && match fills node with
     | Some fs => forallb hostGradient fs
     | None => true
     end
  && match children node with
     | Some cs => forallb tagsFromHost cs
     | None => true
     end.

(** A text without any of the five special characters. *)
Definition plainText (s : string) : bool := allChars (fun a => negb (isSpecial a)) s.

Section Escaped.
Variable engine : Engine.

(** The serializer as the specification words it: the layout of
    [nodeToXML] and [toXML], in which every string written into an
    attribute value or an element body is escaped character by character
    with [escapeEach], and the text of a node is written as it is inside a
    CDATA block. The stroke element and the gradient stops hold numbers
    only. *)
Definition escapedFillToXML (spaces : string) (node : ExtractedNodeData) : string :=
  match fills node with
  | Some (fill :: _) =>
      spaces ++ "  <fill>" ++ nl
      ++ match fill with
         | Solid c o =>
             spaces ++ "    <solid " ++ attr "r" (num engine (r c))
               ++ " " ++ attr "g" (num engine (g c))
               ++ " " ++ attr "b" (num engine (b c))
               ++ " " ++ attr "opacity" (num engine (orDefault o (ofZ 1))) ++ "/>" ++ nl
         | Gradient gradientType stops _ =>
             spaces ++ "    <gradient " ++ attr "type" (escapeEach gradientType) ++ ">" ++ nl
               ++ String.concat "" (map (stopToXML engine spaces) stops)
               ++ spaces ++ "    </gradient>" ++ nl
         | _ => ""
         end
      ++ spaces ++ "  </fill>" ++ nl
  | _ => ""
  end.

Definition escapedTextToXML (spaces : string) (node : ExtractedNodeData) : string :=
  match text node with
  | Some (String c t) => spaces ++ "  <text><![CDATA[" ++ String c t ++ "]]></text>" ++ nl
  | _ => ""
  end.

Definition escapedPropertiesToXML (spaces : string) (node : ExtractedNodeData) : string :=
  match cornerRadius node, shapeTypeSet node with
  | None, None => ""
  | cr, st =>
      spaces ++ "  <properties>" ++ nl
      ++ match cr with
         | Some c => spaces ++ "    <cornerRadius>" ++ num engine c ++ "</cornerRadius>" ++ nl
         | None => ""
         end
      ++ match st with
         | Some t => spaces ++ "    <shapeType>" ++ escapeEach t ++ "</shapeType>" ++ nl
         | None => ""
         end
      ++ spaces ++ "  </properties>" ++ nl
  end.

Definition escapedShapeHead (spaces : string) (node : ExtractedNodeData) : string :=
  spaces ++ "<shape>" ++ nl
  ++ spaces ++ "  <type>" ++ escapeEach (mappedName (type node)) ++ "</type>" ++ nl
  ++ spaces ++ "  <id>" ++ escapeEach (id node) ++ "</id>" ++ nl
  ++ spaces ++ "  <name>" ++ escapeEach (name node) ++ "</name>" ++ nl
  ++ spaces ++ "  <geometry>" ++ nl
  ++ spaces ++ "    <position " ++ attr "x" (num engine (x node))
       ++ " " ++ attr "y" (num engine (y node)) ++ "/>" ++ nl
  ++ spaces ++ "    <size " ++ attr "width" (num engine (width node))
       ++ " " ++ attr "height" (num engine (height node)) ++ "/>" ++ nl
  ++ spaces ++ "    <rotation " ++ attr "degrees" (num engine (rotation node)) ++ "/>" ++ nl
  ++ spaces ++ "  </geometry>" ++ nl
  ++ escapedFillToXML spaces node
  ++ strokeToXML engine spaces node
  ++ escapedTextToXML spaces node
  ++ escapedPropertiesToXML spaces node.

Fixpoint escapedNodeToXML (node : ExtractedNodeData) (indent : nat) : string :=
  let spaces := repeat "  " indent in
  escapedShapeHead spaces node
  ++ match children node with
     | Some (c :: cs) =>
         spaces ++ "  <group>" ++ nl
         ++ String.concat ""
              (map (fun child => escapedNodeToXML child (indent + 2)) (c :: cs))
         ++ spaces ++ "  </group>" ++ nl
     | _ => ""
     end
  ++ spaces ++ "</shape>" ++ nl.

Definition escapedToXML (now : string) (nodes : list ExtractedNodeData)
  (pageInfo : PageInfo) : string :=
  "<?xml " ++ attr "version" "1.0" ++ " " ++ attr "encoding" "UTF-8" ++ "?>" ++ nl
  ++ "<!-- FigJam to PowerPoint Export -->" ++ nl
  ++ "<presentation " ++ attr "xmlns" "http://schemas.figjam2pptx.com/presentation"
       ++ ">" ++ nl
  ++ "  <metadata>" ++ nl
  ++ "    <exportDate>" ++ escapeEach now ++ "</exportDate>" ++ nl
  ++ "    <sourcePage>" ++ escapeEach (pi_name pageInfo) ++ "</sourcePage>" ++ nl
  ++ "    <objectCount>" ++ num engine (ofZ (Z.of_nat (List.length nodes)))
       ++ "</objectCount>" ++ nl
  ++ "  </metadata>" ++ nl
  ++ "  <slide " ++ attr "width" (num engine (pi_width pageInfo))
       ++ " " ++ attr "height" (num engine (pi_height pageInfo)) ++ ">" ++ nl
  ++ String.concat "" (map (fun node => escapedNodeToXML node 2) nodes)
  ++ "  </slide>" ++ nl
  ++ "</presentation>".

End Escaped.

(** *** Sample data *)

(** Decimal text of an integer-valued number, as [Number::toString]
    gives it below 1e21; the samples use no other number. *)
Fixpoint digitsOf (fuel : nat) (n : Z) (acc : string) : string :=
  match fuel with
  | O => acc
  | S fuel' =>
      let d := String (ascii_of_nat (48 + Z.to_nat (n mod 10))) acc in
      if (n <? 10)%Z then d else digitsOf fuel' (n / 10) d
  end.

Definition integerToString (n : number) : string :=
  match toInteger n with
  | Some k =>
      if (k <? 0)%Z then "-" ++ digitsOf 25 (- k) "" else digitsOf 25 k ""
  | None => "NaN"
  end.

Definition sampleEngine : Engine :=
  {| numberToString := integerToString;
     inheritedToString := fun key => "function " ++ key ++ "() { [native code] }" |}.

Definition blankNode (t : string) : SceneNode :=
  {| node_id := "1:1"; node_name := "Node"; node_type := t;
     node_x := ofZ 0; node_y := ofZ 0;
     node_width := Some (ofZ 10); node_height := Some (ofZ 10);
     node_rotation := Some (ofZ 0); node_visible := true;
     node_cornerRadius := None; node_fills := None; node_strokes := None;
     node_strokeWeight := None; node_pointCount := None; node_shapeType := None;
     node_text := None; node_characters := None;
     node_connectorStart := None; node_connectorEnd := None;
     node_children := None |}.

Definition solidPaint (cr cg cb : number) (o : option number) : HostPaint :=
  {| paint_type := "SOLID"; paint_visible := Some true; paint_opacity := o;
     paint_color := Some {| r := cr; g := cg; b := cb |};
     paint_imageHash := None; paint_scaleMode := None;
     paint_gradientStops := None |}.

(** A solid paint that is marked invisible and has no colour. *)
Definition hiddenPaint : HostPaint :=
  {| paint_type := "SOLID"; paint_visible := Some false; paint_opacity := None;
     paint_color := None; paint_imageHash := None; paint_scaleMode := None;
     paint_gradientStops := None |}.

(** The rectangle of the scenario: x 100, y 200, 300 by 150, no rotation,
    corner radius 8, one visible solid fill (1, 0.39, 0.2) of opacity 1. *)
Definition scenarioRectangle : SceneNode :=
  {| node_id := "1:2"; node_name := "Rectangle"; node_type := "RECTANGLE";
     node_x := ofZ 100; node_y := ofZ 200;
     node_width := Some (ofZ 300); node_height := Some (ofZ 150);
     node_rotation := Some (ofZ 0); node_visible := true;
     node_cornerRadius := Some (ofZ 8);
     node_fills :=
       Some (Paints [solidPaint (ofZ 1) (decimal 39 100) (decimal 2 10)
                       (Some (ofZ 1))]);
     node_strokes := Some (Paints []);
     node_strokeWeight := Some (ofZ 1);
     node_pointCount := None; node_shapeType := None;
     node_text := None; node_characters := None;
     node_connectorStart := None; node_connectorEnd := None;
     node_children := None |}.

Definition scenarioPage : PageNode :=
  {| page_selection := [scenarioRectangle]; page_name := "Page 1";
     page_width := ofZ 1920; page_height := ofZ 1080 |}.

Definition blankExtracted (t : string) : ExtractedNodeData :=
  emptyVariant "1:1" "Node" t (ofZ 0) (ofZ 0) (ofZ 10) (ofZ 10) (ofZ 0) true.

Definition white : RGB := {| r := ofZ 255; g := ofZ 255; b := ofZ 255 |}.

(** An extracted node whose only fill is an image. *)
Definition imageFilled : ExtractedNodeData :=
  withFills (blankExtracted "RECTANGLE") [Image (Some "hash") (Some "FILL") (ofZ 1)].

(** An extracted node with a solid stroke and no stroke weight, as
    [extractShapeWithTextData] builds it. *)
Definition strokedNoWeight : ExtractedNodeData :=
  withStrokes (blankExtracted "SHAPE_WITH_TEXT") [Solid white (ofZ 1)].

(** An extracted node with a solid stroke of weight 0. *)
Definition strokedZeroWeight : ExtractedNodeData :=
  withStrokeWeight (withStrokes (blankExtracted "RECTANGLE") [Solid white (ofZ 1)])
    (Some (ofZ 0)).

(** An extracted node whose first fill is a gradient with a sub-kind tag
    that contains an ampersand. *)
Definition gradientAmp : ExtractedNodeData :=
  withFills (blankExtracted "RECTANGLE") [Gradient "GRADIENT_A&B" [] (ofZ 1)].

(** A frame named with special characters that holds a text and a shape
    filled with a host gradient. *)
Definition taggedFrame : ExtractedNodeData :=
  withChildren
    (emptyVariant "1:9" "A & B <test>" "FRAME" (ofZ 0) (ofZ 0) (ofZ 10) (ofZ 10)
       (ofZ 0) true)
    [ withText (blankExtracted "TEXT") (Some "a < b");
      withFills (blankExtracted "RECTANGLE") [Gradient "GRADIENT_LINEAR" [] (ofZ 1)] ].

End Spec.

(** ** Auxiliary definitions for the rounding proofs *)

Module Rounding.

(** The record [shr] reaches after [k] shifts of [m0]. *)
Definition shr_spec (m0 k : Z) : shr_record :=
  if (k =? 0)%Z then {| shr_m := m0; shr_r := false; shr_s := false |}
  else {| shr_m := m0 / 2 ^ k;
          shr_r := Z.testbit m0 (k - 1);
          shr_s := negb (m0 mod 2 ^ (k - 1) =? 0)%Z |}.

(** [m0 / 2^k] rounded to nearest, ties to even. *)
Definition rne (m0 k : Z) : Z :=
  m0 / 2 ^ k +
  (if Z.testbit m0 (k - 1)
      && (negb (m0 mod 2 ^ (k - 1) =? 0)%Z || Z.odd (m0 / 2 ^ k))
   then 1 else 0).

(** [n] rounded to 53 significant bits. *)
Definition round53 (n : Z) : Z :=
  let t := Z.max (Zdigits2 n - 53) 0 in
  if (t =? 0)%Z then n else rne n t * 2 ^ t.

(** The value of a number of the unit interval in units of [2^-K]. *)
Definition sval (K : Z) (v : number) : Z :=
  match v with
  | S754_finite false m e => Zpos m * 2 ^ (e + K)
  | _ => 0
  end.

(** The scaled channel as a function of the scaled value. *)
Definition chanZ (K : Z) (S : Z) : Z :=
  (2 * round53 (255 * S) + 2 ^ K) / (2 * 2 ^ K).

End Rounding.

(** ** Rounding: the product of a channel with 255 and [Math.round] of it *)

Close Scope string_scope.

Import Rounding CodeTs Spec.

Section RoundingFacts.

Lemma digits2_pos_bounds p :
  2 ^ (Zpos (digits2_pos p) - 1) <= Zpos p < 2 ^ Zpos (digits2_pos p).
Proof.
  induction p as [p IH | p IH | ]; cbn [digits2_pos].
  - rewrite Pos2Z.inj_succ.
    replace (Z.succ (Zpos (digits2_pos p)) - 1) with (Z.succ (Zpos (digits2_pos p) - 1)) by lia.
    rewrite !Z.pow_succ_r by lia. lia.
  - rewrite Pos2Z.inj_succ.
    replace (Z.succ (Zpos (digits2_pos p)) - 1) with (Z.succ (Zpos (digits2_pos p) - 1)) by lia.
    rewrite !Z.pow_succ_r by lia. lia.
  - simpl. lia.
Qed.

Lemma shr_1_nonneg m r s :
  0 <= m ->
  shr_1 {| shr_m := m; shr_r := r; shr_s := s |}
  = {| shr_m := m / 2; shr_r := Z.odd m; shr_s := r || s |}.
Proof.
  intros Hm. rewrite <- Z.div2_div.
  destruct m as [|[p|p|]|]; try reflexivity. lia.
Qed.

Lemma mod_pow2_succ m k :
  0 <= k ->
  m mod 2 ^ (k + 1) = m mod 2 ^ k + 2 ^ k * (if Z.testbit m k then 1 else 0).
Proof.
  intros Hk. rewrite Z.pow_add_r, Z.pow_1_r by lia.
  rewrite Z.rem_mul_r by (try apply Z.pow_nonzero; lia).
  f_equal. f_equal.
  rewrite <- Z.testbit_spec' by lia.
  destruct (Z.testbit m k); reflexivity.
Qed.

Lemma shr_spec_step m0 k :
  0 <= m0 -> 0 <= k -> shr_1 (shr_spec m0 k) = shr_spec m0 (k + 1).
Proof.
  intros Hm Hk. unfold shr_spec.
  destruct (Z.eqb_spec k 0) as [->|Hk0].
  - rewrite shr_1_nonneg by lia.
    change (0 + 1 =? 0) with false. change (0 + 1 - 1) with 0. cbv iota.
    rewrite Z.bit0_odd, Z.pow_0_r, Z.mod_1_r, Z.pow_1_r. reflexivity.
  - destruct (Z.eqb_spec (k + 1) 0); [lia|].
    rewrite shr_1_nonneg by (apply Z.div_pos; [lia | apply Z.pow_pos_nonneg; lia]).
    replace (k + 1 - 1) with k by lia.
    rewrite Z.div_div by (try apply Z.pow_pos_nonneg; lia).
    replace (2 ^ k * 2) with (2 ^ (k + 1)) by (rewrite Z.pow_add_r; lia).
    assert (Eodd : Z.odd (m0 / 2 ^ k) = Z.testbit m0 k).
    { rewrite <- Z.shiftr_div_pow2, <- Z.bit0_odd, Z.shiftr_spec by lia.
      f_equal. }
    rewrite Eodd.
    f_equal.
    pose proof (mod_pow2_succ m0 (k - 1) ltac:(lia)) as E.
    replace (k - 1 + 1) with k in E by lia.
    pose proof (Z.mod_pos_bound m0 (2 ^ (k - 1)) ltac:(apply Z.pow_pos_nonneg; lia)).
    assert (0 < 2 ^ (k - 1)) by (apply Z.pow_pos_nonneg; lia).
    destruct (Z.testbit m0 (k - 1)); simpl;
      destruct (Z.eqb_spec (m0 mod 2 ^ (k - 1)) 0); destruct (Z.eqb_spec (m0 mod 2 ^ k) 0);
      simpl; try reflexivity; lia.
Qed.

Lemma iter_shr_spec p : forall m0 k,
  0 <= m0 -> 0 <= k ->
  iter_pos shr_1 p (shr_spec m0 k) = shr_spec m0 (k + Zpos p).
Proof.
  induction p as [p IH | p IH | ]; intros m0 k Hm Hk; cbn [iter_pos].
  - rewrite shr_spec_step, !IH by lia. f_equal. lia.
  - rewrite !IH by lia. f_equal. lia.
  - apply shr_spec_step; assumption.
Qed.

Lemma round_nearest_even_spec m0 k :
  0 < k ->
  round_nearest_even (shr_m (shr_spec m0 k)) (loc_of_shr_record (shr_spec m0 k)) = rne m0 k.
Proof.
  intros Hk. unfold shr_spec, rne.
  destruct (Z.eqb_spec k 0); [lia|]. cbn [shr_m loc_of_shr_record].
  destruct (Z.testbit m0 (k - 1)), (m0 mod 2 ^ (k - 1) =? 0); cbn; rewrite <- ?Z.negb_odd;
    try destruct (Z.odd (m0 / 2 ^ k)); cbn; lia.
Qed.

Lemma pow2_pos k : 0 <= k -> 0 < 2 ^ k.
Proof. intros; apply Z.pow_pos_nonneg; lia. Qed.

Lemma rne_bounds m0 k :
  0 <= m0 -> 0 < k -> m0 / 2 ^ k <= rne m0 k <= m0 / 2 ^ k + 1.
Proof.
  intros _ _. unfold rne.
  destruct (Z.testbit m0 (k - 1) && _); lia.
Qed.

Lemma split_low m k :
  0 < k ->
  m = (m / 2 ^ k) * 2 ^ k + (if Z.testbit m (k - 1) then 2 ^ (k - 1) else 0) + m mod 2 ^ (k - 1)
  /\ 0 <= m mod 2 ^ (k - 1) < 2 ^ (k - 1) /\ 2 ^ k = 2 * 2 ^ (k - 1).
Proof.
  intros Hk.
  pose proof (pow2_pos (k - 1) ltac:(lia)) as Hh.
  pose proof (mod_pow2_succ m (k - 1) ltac:(lia)) as E.
  replace (k - 1 + 1) with k in E by lia.
  pose proof (Z.div_mod m (2 ^ k) ltac:(pose proof (pow2_pos k); lia)) as D.
  pose proof (Z.mod_pos_bound m (2 ^ (k - 1)) Hh) as B.
  assert (P : 2 ^ k = 2 * 2 ^ (k - 1)).
  { replace k with (Z.succ (k - 1)) at 1 by lia. apply Z.pow_succ_r; lia. }
  repeat split; try lia.
  destruct (Z.testbit m (k - 1)); lia.
Qed.

Lemma rne_mono m1 m2 k :
  0 <= m1 <= m2 -> 0 < k -> rne m1 k <= rne m2 k.
Proof.
  intros Hm Hk.
  pose proof (rne_bounds m1 k ltac:(lia) Hk) as B1.
  pose proof (rne_bounds m2 k ltac:(lia) Hk) as B2.
  pose proof (Z.div_le_mono m1 m2 (2 ^ k) (pow2_pos k ltac:(lia)) ltac:(lia)) as Q.
  destruct (Z.eq_dec (m1 / 2 ^ k) (m2 / 2 ^ k)) as [Eq|Ne]; [|lia].
  clear B1 B2 Q.
  destruct (split_low m1 k Hk) as (S1 & L1 & P).
  destruct (split_low m2 k Hk) as (S2 & L2 & _).
  unfold rne. rewrite <- Eq in *.
  destruct (Z.testbit m1 (k - 1)), (Z.testbit m2 (k - 1)); cbn [andb];
    destruct (Z.eqb_spec (m1 mod 2 ^ (k - 1)) 0), (Z.eqb_spec (m2 mod 2 ^ (k - 1)) 0);
    cbn [negb orb]; try destruct (Z.odd (m1 / 2 ^ k)); lia.
Qed.

Lemma rne_scale m k j :
  0 < k -> 0 <= j -> rne (m * 2 ^ j) (k + j) = rne m k.
Proof.
  intros Hk Hj. unfold rne.
  rewrite Z.pow_add_r by lia.
  rewrite Z.div_mul_cancel_r by (pose proof (pow2_pos k); pose proof (pow2_pos j); lia).
  rewrite Z.mul_pow2_bits by lia.
  replace (k + j - 1 - j) with (k - 1) by lia.
  replace (k + j - 1) with (k - 1 + j) by lia.
  rewrite Z.pow_add_r by lia.
  rewrite Z.mul_mod_distr_r by (pose proof (pow2_pos (k - 1)); pose proof (pow2_pos j); lia).
  pose proof (pow2_pos j Hj).
  destruct (Z.eqb_spec (m mod 2 ^ (k - 1) * 2 ^ j) 0), (Z.eqb_spec (m mod 2 ^ (k - 1)) 0);
    try reflexivity; nia.
Qed.

Lemma rne_exact m j : 0 < j -> rne (m * 2 ^ j) j = m.
Proof.
  intros Hj. unfold rne.
  rewrite Z.div_mul by (pose proof (pow2_pos j); lia).
  rewrite Z.mul_pow2_bits by lia.
  rewrite Z.testbit_neg_r by lia. cbn. lia.
Qed.

Lemma shr_nonpos mrs e n : n <= 0 -> shr mrs e n = (mrs, e).
Proof. destruct n; [reflexivity | lia | reflexivity]. Qed.

Lemma shr_pos m0 e n :
  0 <= m0 -> 0 < n ->
  shr {| shr_m := m0; shr_r := false; shr_s := false |} e n = (shr_spec m0 n, e + n).
Proof.
  intros Hm Hn. destruct n as [|p|p]; try lia. unfold shr.
  change {| shr_m := m0; shr_r := false; shr_s := false |} with (shr_spec m0 0).
  rewrite iter_shr_spec by lia. reflexivity.
Qed.

Lemma binary_round_aux_pos (M : positive) (E s : Z) :
  s = Z.max (Zpos (digits2_pos M) - 53) (-1074 - E) ->
  0 < s -> 2 ^ s <= Zpos M -> E + s + 1 <= 971 ->
  exists m' e',
    binary_round_aux 53 1024 false (Zpos M) E loc_Exact = S754_finite false m' e'
    /\ E + s <= e' /\ Zpos m' * 2 ^ (e' - (E + s)) = rne (Zpos M) s.
Proof.
  intros Hs Hpos Hle Hmax.
  pose proof (digits2_pos_bounds M) as [DL DU].
  unfold binary_round_aux, shr_fexp.
  assert (Es : fexp 53 1024 (Zdigits2 (Zpos M) + E) - E = s).
  { unfold fexp, emin. cbn [Zdigits2]. lia. }
  rewrite Es. cbn [shr_record_of_loc].
  rewrite shr_pos by lia.
  rewrite round_nearest_even_spec by lia.
  pose proof (rne_bounds (Zpos M) s ltac:(lia) Hpos) as [BL BU].
  assert (Q1 : 1 <= Zpos M / 2 ^ s).
  { apply Z.div_le_lower_bound; [apply pow2_pos|]; lia. }
  assert (Q2 : Zpos M / 2 ^ s < 2 ^ 53).
  { apply Z.div_lt_upper_bound; [apply pow2_pos; lia|].
    rewrite <- Z.pow_add_r by lia.
    eapply Z.lt_le_trans; [exact DU|]. apply Z.pow_le_mono_r; lia. }
  destruct (rne (Zpos M) s) as [|q|q] eqn:Eq; try lia.
  pose proof (digits2_pos_bounds q) as [QL QU].
  destruct (Z.eq_dec (Zpos q) (2 ^ 53)) as [Top|NotTop].
  - assert (q = 9007199254740992%positive) as -> by (apply Pos2Z.inj; rewrite Top; reflexivity).
    assert (E2 : fexp 53 1024 (Zdigits2 9007199254740992 + (E + s)) - (E + s) = 1).
    { unfold fexp, emin. change (Zdigits2 9007199254740992) with 54. lia. }
    rewrite E2. cbn [shr_record_of_loc].
    rewrite shr_pos by lia.
    change (shr_m (shr_spec 9007199254740992 1)) with (Zpos (2 ^ 52)).
    destruct (Z.leb_spec (E + s + 1) (1024 - 53)); [|lia].
    exists (2 ^ 52)%positive, (E + s + 1). split; [reflexivity|]. split; [lia|].
    replace (E + s + 1 - (E + s)) with 1 by lia. reflexivity.
  - assert (Dq : Zpos (digits2_pos q) <= 53).
    { destruct (Z.le_gt_cases (Zpos (digits2_pos q)) 53) as [|G]; [assumption|exfalso].
      assert (2 ^ 53 <= 2 ^ (Zpos (digits2_pos q) - 1)) by (apply Z.pow_le_mono_r; lia).
      lia. }
    rewrite shr_nonpos by (unfold fexp, emin; cbn [Zdigits2]; lia).
    cbn [shr_record_of_loc shr_m].
    destruct (Z.leb_spec (E + s) (1024 - 53)); [|lia].
    exists q, (E + s). split; [reflexivity|]. split; [lia|].
    rewrite Z.sub_diag. cbn. lia.
Qed.

Lemma Zdigits2_bounds n : 0 < n -> 2 ^ (Zdigits2 n - 1) <= n < 2 ^ Zdigits2 n /\ 0 < Zdigits2 n.
Proof.
  destruct n as [|p|p]; try lia. intros _. cbn [Zdigits2].
  split; [apply digits2_pos_bounds | lia].
Qed.

Lemma Zdigits2_unique n d : 0 < d -> 2 ^ (d - 1) <= n < 2 ^ d -> Zdigits2 n = d.
Proof.
  intros Hd [L U].
  assert (Hn : 0 < n) by (pose proof (pow2_pos (d - 1)); lia).
  destruct (Zdigits2_bounds n Hn) as [[L' U'] Hd'].
  assert (d - 1 < Zdigits2 n).
  { apply (Z.pow_lt_mono_r_iff 2); lia. }
  assert (Zdigits2 n - 1 < d).
  { apply (Z.pow_lt_mono_r_iff 2); lia. }
  lia.
Qed.

Lemma Zdigits2_scale n j : 0 < n -> 0 <= j -> Zdigits2 (n * 2 ^ j) = Zdigits2 n + j.
Proof.
  intros Hn Hj. destruct (Zdigits2_bounds n Hn) as [[L U] Hd].
  pose proof (pow2_pos j Hj).
  apply Zdigits2_unique; [lia|].
  replace (Zdigits2 n + j - 1) with (Zdigits2 n - 1 + j) by lia.
  rewrite !Z.pow_add_r by lia. nia.
Qed.

Lemma Zdigits2_mono n1 n2 : 0 < n1 <= n2 -> Zdigits2 n1 <= Zdigits2 n2.
Proof.
  intros [H1 H2].
  destruct (Zdigits2_bounds n1 H1) as [[L1 U1] D1].
  destruct (Zdigits2_bounds n2 ltac:(lia)) as [[L2 U2] D2].
  assert (Zdigits2 n1 - 1 < Zdigits2 n2); [|lia].
  apply (Z.pow_lt_mono_r_iff 2); lia.
Qed.

Lemma round53_scale n j : 0 < n -> 0 <= j -> round53 (n * 2 ^ j) = round53 n * 2 ^ j.
Proof.
  intros Hn Hj. unfold round53. rewrite Zdigits2_scale by assumption.
  destruct (Zdigits2_bounds n Hn) as [_ Hd].
  destruct (Z.eqb_spec (Z.max (Zdigits2 n - 53) 0) 0) as [T0|T0];
    destruct (Z.eqb_spec (Z.max (Zdigits2 n + j - 53) 0) 0) as [T1|T1]; try lia.
  - set (t := Z.max (Zdigits2 n + j - 53) 0) in *.
    replace (n * 2 ^ j) with (n * 2 ^ (j - t) * 2 ^ t)
      by (rewrite <- Z.mul_assoc, <- Z.pow_add_r by lia; do 2 f_equal; lia).
    rewrite rne_exact by lia. reflexivity.
  - replace (Z.max (Zdigits2 n + j - 53) 0) with (Z.max (Zdigits2 n - 53) 0 + j) by lia.
    rewrite rne_scale by lia. rewrite Z.pow_add_r by lia. ring.
Qed.

Lemma round53_mono n1 n2 : 0 < n1 <= n2 -> round53 n1 <= round53 n2.
Proof.
  intros [H1 H2]. unfold round53.
  pose proof (Zdigits2_mono n1 n2 ltac:(lia)) as Dm.
  destruct (Zdigits2_bounds n1 H1) as [[L1 U1] D1].
  destruct (Zdigits2_bounds n2 ltac:(lia)) as [[L2 U2] D2].
  set (t1 := Z.max (Zdigits2 n1 - 53) 0) in *.
  set (t2 := Z.max (Zdigits2 n2 - 53) 0) in *.
  destruct (Z.eq_dec t1 t2) as [Et|Nt].
  - rewrite <- Et. destruct (Z.eqb_spec t1 0); [assumption|].
    apply Z.mul_le_mono_nonneg_r; [pose proof (pow2_pos t1); lia|].
    apply rne_mono; lia.
  - assert (Lt : t1 < t2) by lia.
    assert (T2 : t2 = Zdigits2 n2 - 53) by lia.
    destruct (Z.eqb_spec t2 0); [lia|].
    pose proof (pow2_pos t2 ltac:(lia)) as P2.
    assert (Lo : 2 ^ (52 + t2) <= rne n2 t2 * 2 ^ t2).
    { rewrite Z.pow_add_r by lia. apply Z.mul_le_mono_nonneg_r; [lia|].
      pose proof (rne_bounds n2 t2 ltac:(lia) ltac:(lia)) as [B _].
      eapply Z.le_trans; [|exact B].
      apply Z.div_le_lower_bound; [lia|].
      rewrite Z.mul_comm, <- Z.pow_add_r by lia.
      replace (52 + t2) with (Zdigits2 n2 - 1) by lia. assumption. }
    assert (Hi : (if t1 =? 0 then n1 else rne n1 t1 * 2 ^ t1) <= 2 ^ (53 + t1)).
    { assert (U : n1 < 2 ^ (53 + t1)).
      { eapply Z.lt_le_trans; [exact U1|]. apply Z.pow_le_mono_r; lia. }
      destruct (Z.eqb_spec t1 0); [lia|].
      rewrite Z.pow_add_r by lia.
      pose proof (pow2_pos t1 ltac:(lia)).
      apply Z.mul_le_mono_nonneg_r; [lia|].
      pose proof (rne_bounds n1 t1 ltac:(lia) ltac:(lia)) as [_ B].
      assert (n1 / 2 ^ t1 < 2 ^ 53); [|lia].
      apply Z.div_lt_upper_bound; [lia|].
      rewrite <- Z.pow_add_r by lia. replace (t1 + 53) with (53 + t1) by lia. assumption. }
    eapply Z.le_trans; [exact Hi|]. eapply Z.le_trans; [|exact Lo].
    apply Z.pow_le_mono_r; lia.
Qed.

Lemma bounded_canonical m e :
  bounded 53 1024 m e = true ->
  -1074 <= e <= 971 /\ Zpos (digits2_pos m) <= 53 /\ (-1074 < e -> Zpos (digits2_pos m) = 53).
Proof.
  unfold bounded, canonical_mantissa, fexp, emin. intros H.
  apply andb_true_iff in H as [C B].
  apply Z.eqb_eq in C. apply Z.leb_le in B. lia.
Qed.

Lemma mul_255 m e :
  bounded 53 1024 m e = true -> e <= -52 ->
  exists m' e',
    mul (S754_finite false m e) (ofZ 255) = S754_finite false m' e'
    /\ e <= e' /\ Zpos m' * 2 ^ (e' - e) = round53 (255 * Zpos m).
Proof.
  intros Hb He. destruct (bounded_canonical m e Hb) as (Be & Dm & Dn).
  pose proof (digits2_pos_bounds m) as [ML MU].
  change (ofZ 255) with (S754_finite false (255 * 2 ^ 45) (-45)).
  unfold mul, SFmul. cbn [xorb].
  set (n := 255 * Zpos m).
  assert (Hn : 0 < n) by (unfold n; lia).
  destruct (Zdigits2_bounds n Hn) as [[NL NU] ND].
  assert (EM : Zpos (m * (255 * 2 ^ 45)) = n * 2 ^ 45) by (unfold n; lia).
  assert (DM : Zpos (digits2_pos (m * (255 * 2 ^ 45))) = Zdigits2 n + 45).
  { change (Zpos (digits2_pos (m * (255 * 2 ^ 45)))) with (Zdigits2 (Zpos (m * (255 * 2 ^ 45)))).
    rewrite EM. apply Zdigits2_scale; lia. }
  assert (D8 : 8 <= Zdigits2 n).
  { assert (8 - 1 < Zdigits2 n); [|lia]. apply (Z.pow_lt_mono_r_iff 2); [lia..|].
    change (2 ^ (8 - 1)) with 128. lia. }
  set (t := Z.max (Zdigits2 n - 53) 0).
  assert (Dt : -1074 < e -> 0 < t).
  { intros G. specialize (Dn G). rewrite Dn in ML. change (2 ^ (53 - 1)) with 4503599627370496 in ML.
    assert (60 - 1 < Zdigits2 n); [|lia]. apply (Z.pow_lt_mono_r_iff 2); [lia..|].
    change (2 ^ (60 - 1)) with 576460752303423488. lia. }
  destruct (binary_round_aux_pos (m * (255 * 2 ^ 45)) (e + -45) (t + 45)) as (m' & e' & R & Le & V).
  - rewrite DM. unfold t. lia.
  - unfold t. lia.
  - rewrite EM. rewrite Z.pow_add_r by (unfold t; lia).
    apply Z.mul_le_mono_nonneg_r; [lia|].
    destruct (Z.eq_dec t 0) as [->|T0]; [cbn; lia|].
    eapply Z.le_trans; [|exact NL]. apply Z.pow_le_mono_r; unfold t in *; lia.
  - assert (Zdigits2 n - 1 < 61); [|unfold t; lia].
    apply (Z.pow_lt_mono_r_iff 2); [lia..|].
    eapply Z.le_lt_trans; [exact NL|].
    assert (Zpos m < 2 ^ 53).
    { eapply Z.lt_le_trans; [exact MU|]. apply Z.pow_le_mono_r; lia. }
    change (2 ^ 61) with (256 * 2 ^ 53). unfold n. lia.
  - exists m', e'. split; [exact R|].
    assert (T0 : 0 <= t) by (unfold t; lia).
    split; [lia|].
    replace (e' - e) with (e' - (e + -45 + (t + 45)) + t) by lia.
    rewrite Z.pow_add_r, Z.mul_assoc, V, EM by lia.
    unfold round53. fold t.
    destruct (Z.eqb_spec t 0) as [Z0|NZ].
    + rewrite Z0. cbn [Z.add]. rewrite rne_exact by lia. cbn. lia.
    + rewrite (Z.add_comm t 45), (Z.add_comm 45 t), rne_scale by lia. reflexivity.
Qed.


Section Scaled.
Variable K : Z.
Hypothesis HK : 1074 <= K.
Local Abbreviation sval := (Rounding.sval K).
Local Abbreviation chanZ := (Rounding.chanZ K).

Lemma unit_interval_cases x :
  in_unit_interval x ->
  (exists s, x = S754_zero s) \/
  (exists m e, x = S754_finite false m e /\ bounded 53 1024 m e = true /\ e <= -52
               /\ 0 < sval x <= 2 ^ K).
Proof.
  intros (V & L0 & L1). destruct x as [s|s| |s m e].
  - left. eauto.
  - destruct s; [discriminate L0 | discriminate L1].
  - discriminate L0.
  - right. destruct s; [discriminate L0|]. exists m, e. split; [reflexivity|].
    split; [exact V|].
    destruct (bounded_canonical m e V) as (Be & Dm & Dn).
    pose proof (digits2_pos_bounds m) as [ML MU].
    assert (MU' : Zpos m < 2 ^ 53).
    { eapply Z.lt_le_trans; [exact MU|]. apply Z.pow_le_mono_r; lia. }
    unfold le, SFleb in L1. change (ofZ 1) with (S754_finite false 4503599627370496 (-52)) in L1.
    cbn [SFcompare] in L1. cbn [sval].
    pose proof (pow2_pos (e + K) ltac:(lia)) as PP.
    assert (Ee : e <= -52 /\ (e = -52 -> Zpos m <= 2 ^ 52)).
    { clear - L1.
      destruct (Z.compare_spec e (-52)) as [E|E|E]; [| |discriminate L1].
      - split; [lia|]. intros _.
        rewrite Pos.compare_cont_spec in L1. cbn [Pos.switch_Eq] in L1.
        change (2 ^ 52) with 4503599627370496.
        destruct (Pos.compare_spec m 4503599627370496) as [C|C|C];
          [subst m; apply Z.le_refl | apply Z.lt_le_incl; exact C | discriminate L1].
      - split; lia. }
    destruct Ee as [Ee1 Ee2]. split; [assumption|].
    split; [apply Z.mul_pos_pos; lia|].
    destruct (Z.eq_dec e (-52)) as [->|Ne].
    + specialize (Ee2 eq_refl).
      replace (2 ^ K) with (2 ^ 52 * 2 ^ (-52 + K))
        by (rewrite <- (Z.pow_add_r 2 52 (-52 + K)) by lia; f_equal; lia).
      apply Z.mul_le_mono_nonneg_r; [apply Z.lt_le_incl; exact PP | exact Ee2].
    + apply Z.le_trans with (2 ^ 53 * 2 ^ (e + K)).
      * apply Z.mul_le_mono_nonneg_r; [apply Z.lt_le_incl; exact PP | apply Z.lt_le_incl; exact MU'].
      * rewrite <- Z.pow_add_r by lia. apply Z.pow_le_mono_r; lia.
Qed.


Lemma round_half_up_sval m e :
  - K <= e -> round_half_up m e = (2 * (m * 2 ^ (e + K)) + 2 ^ K) / (2 * 2 ^ K).
Proof.
  intros He. unfold round_half_up.
  assert (P : 0 < 2 ^ K) by (apply pow2_pos; lia).
  destruct e as [|p|p].
  - rewrite Z.add_0_l, Z.pow_0_r.
    replace (2 * (m * 2 ^ K) + 2 ^ K) with (m * (2 * 2 ^ K) + 2 ^ K) by ring.
    rewrite Z.div_add_l by lia. rewrite (Z.div_small (2 ^ K)) by lia. lia.
  - replace (2 * (m * 2 ^ (Zpos p + K)) + 2 ^ K)
      with (m * 2 ^ Zpos p * (2 * 2 ^ K) + 2 ^ K)
      by (rewrite Z.pow_add_r by lia; ring).
    rewrite Z.div_add_l by lia. rewrite (Z.div_small (2 ^ K)) by lia. lia.
  - set (j := Zneg p + K) in *.
    assert (Hj : 0 <= j) by (unfold j; lia).
    pose proof (pow2_pos j Hj). pose proof (pow2_pos (Zpos p) ltac:(lia)).
    assert (E1 : 2 ^ K = 2 ^ j * 2 ^ Zpos p).
    { rewrite <- Z.pow_add_r by lia. f_equal. unfold j. lia. }
    rewrite E1.
    replace (2 * (m * 2 ^ j) + 2 ^ j * 2 ^ Zpos p) with (2 ^ j * (2 * m + 2 ^ Zpos p)) by ring.
    replace (2 * (2 ^ j * 2 ^ Zpos p)) with (2 ^ j * 2 ^ (Zpos p + 1))
      by (rewrite Z.pow_add_r by lia; ring).
    rewrite Z.div_mul_cancel_l by (try apply Z.pow_nonzero; lia). reflexivity.
Qed.


Lemma round53_small : round53 0 = 0 /\ round53 1 = 1 /\ round53 255 = 255.
Proof. repeat split; reflexivity. Qed.

Lemma round53_255_scaled : round53 (255 * 2 ^ K) = 255 * 2 ^ K.
Proof.
  rewrite round53_scale by lia. destruct round53_small as (_ & _ & ->). reflexivity.
Qed.

Lemma round53_nonneg n : 0 <= n -> 0 <= round53 n.
Proof.
  intros Hn. destruct (Z.eq_dec n 0) as [->|Ne].
  - destruct round53_small as (-> & _). lia.
  - pose proof (round53_mono 1 n ltac:(lia)) as M.
    destruct round53_small as (_ & E1 & _). rewrite E1 in M. lia.
Qed.

Lemma chanZ_mono S1 S2 : 0 <= S1 <= S2 -> chanZ S1 <= chanZ S2.
Proof.
  intros [H1 H2]. unfold chanZ.
  pose proof (pow2_pos K ltac:(lia)) as P.
  apply Z.div_le_mono; [lia|].
  assert (round53 (255 * S1) <= round53 (255 * S2)); [|lia].
  destruct (Z.eq_dec S1 0) as [->|Ne].
  - change (255 * 0) with 0. destruct round53_small as (-> & _).
    apply round53_nonneg. lia.
  - apply round53_mono. lia.
Qed.

Lemma chanZ_range S : 0 <= S <= 2 ^ K -> 0 <= chanZ S <= 255.
Proof.
  intros [H1 H2]. pose proof (pow2_pos K ltac:(lia)) as P. split.
  - unfold chanZ. apply Z.div_pos; [|lia].
    pose proof (round53_nonneg (255 * S) ltac:(lia)). lia.
  - eapply Z.le_trans; [apply (chanZ_mono S (2 ^ K)); lia|].
    unfold chanZ. rewrite round53_255_scaled.
    replace (2 * (255 * 2 ^ K) + 2 ^ K) with (511 * 2 ^ K) by ring.
    rewrite Z.div_mul_cancel_r by lia. reflexivity.
Qed.

Lemma chanZ_0 : chanZ 0 = 0.
Proof.
  unfold chanZ. change (255 * 0) with 0. destruct round53_small as (-> & _).
  pose proof (pow2_pos K ltac:(lia)) as P.
  apply Z.div_small. lia.
Qed.

Lemma ofZ_small k : 0 <= k <= 255 -> toInteger (ofZ k) = Some k.
Proof.
  intros Hk.
  assert (A : forallb (fun n => match toInteger (ofZ (Z.of_nat n)) with
                                | Some j => j =? Z.of_nat n
                                | None => false
                                end) (seq 0 256) = true) by (vm_compute; reflexivity).
  rewrite forallb_forall in A. specialize (A (Z.to_nat k)).
  rewrite Z2Nat.id in A by lia.
  assert (I : In (Z.to_nat k) (seq 0 256)) by (apply in_seq; lia).
  specialize (A I). destruct (toInteger (ofZ k)) as [j|]; [|discriminate A].
  apply Z.eqb_eq in A. congruence.
Qed.

Lemma scaleChannel_value x :
  in_unit_interval x ->
  toInteger (scaleChannel x) = Some (chanZ (sval x))
  /\ round_half_away_from_zero (mul x (ofZ 255)) = Some (chanZ (sval x))
  /\ 0 <= sval x <= 2 ^ K.
Proof.
  intros Hx. pose proof (pow2_pos K ltac:(lia)) as P.
  destruct (unit_interval_cases x Hx) as [[s ->] | (m & e & -> & Hb & He & Hs)].
  - cbn [sval]. rewrite chanZ_0. repeat split; try lia; destruct s; reflexivity.
  - destruct (bounded_canonical m e Hb) as (Be & _ & _).
    destruct (mul_255 m e Hb He) as (m' & e' & Em & Le & V).
    assert (Ek : round_half_up (Zpos m') e' = chanZ (sval (S754_finite false m e))).
    { rewrite round_half_up_sval by lia. unfold chanZ. cbn [sval].
      do 3 f_equal.
      replace (e' + K) with (e' - e + (e + K)) by lia.
      rewrite Z.pow_add_r, Z.mul_assoc, V by lia.
      rewrite <- round53_scale by lia. f_equal. ring. }
    unfold scaleChannel. rewrite Em. cbn [Math_round cond_Zopp round_half_away_from_zero].
    rewrite Ek. split; [|split; [reflexivity | lia]].
    apply ofZ_small. apply chanZ_range. lia.
Qed.

End Scaled.

End RoundingFacts.


Open Scope string_scope.

(** ** Paint normalisation and node extraction *)

Section ExtractionFacts.
Variable engine : Engine.

Lemma SceneNode_nested_ind (P : SceneNode -> Prop) :
  (forall node, (forall cs, node_children node = Some cs -> Forall P cs) -> P node) ->
  forall node, P node.
Proof.
  intros H. fix IH 1. intros node. apply H.
  destruct node as [i n t px py w h rot v cr fs ss sw pc st tx ch cs ce kids].
  cbn [node_children]. intros l E.
  destruct kids as [l'|]; [|discriminate E]. injection E as <-.
  induction l' as [|c l' IHl]; constructor; [apply IH | exact IHl].
Qed.

Lemma mapRes_ok {A B} (f : A -> Res B) (l : list A) :
  Forall (fun a => exists b, f a = Ok b) l ->
  exists bs, mapRes f l = Ok bs /\ List.length bs = List.length l.
Proof.
  induction 1 as [|a l [b Hb] _ [bs [Hbs Hlen]]].
  - exists []. split; reflexivity.
  - exists (b :: bs). cbn [mapRes]. rewrite Hb. cbn [bindRes]. rewrite Hbs.
    split; [reflexivity | cbn; congruence].
Qed.

Lemma extractPaint_ok p : validPaint p = true -> exists q, extractPaint p = Ok q.
Proof.
  unfold validPaint, extractPaint.
  destruct (paint_type p =? "SOLID")%string.
  - destruct (paint_color p); [eauto | discriminate].
  - destruct (paint_type p =? "IMAGE")%string; [eauto|].
    destruct (startsWith (paint_type p) "GRADIENT"); [|eauto].
    destruct (paint_gradientStops p); [eauto | discriminate].
Qed.

Lemma extractFills_ok ps : validPaints ps = true -> exists l, extractFills ps = Ok l.
Proof.
  destruct ps as [[|l]|]; cbn [validPaints extractFills]; eauto.
  intros V. rewrite forallb_forall in V.
  destruct (mapRes_ok extractPaint (filter paintShown l)) as (bs & E & _); [|eauto].
  apply Forall_forall. intros p Hp. apply filter_In in Hp as [Hp _].
  apply extractPaint_ok, V, Hp.
Qed.

Lemma extractStrokes_ok ps : validPaints ps = true -> exists l, extractStrokes ps = Ok l.
Proof. apply extractFills_ok. Qed.

Lemma some_ok {A} (m : Res A) (a : A) : m = Ok a -> some m = ([], Ok (Some a)).
Proof. intros ->. reflexivity. Qed.

Lemma some_not_null {A} (m : Res A) t : some m <> (t, Ok None).
Proof. unfold some, lift. destruct m; cbn; intros H; inversion H. Qed.

Lemma extractNodeData_not_null node t : extractNodeData engine node <> (t, Ok None).
Proof.
  destruct node as [i n ty px py w h rot v cr fs ss sw pc st tx ch cs ce kids].
  cbn [extractNodeData].
  repeat match goal with
         | |- context [if ?c then _ else _] => destruct c
         end; try apply some_not_null.
  - unfold bind. destruct (extractContainerData _ _ _) as [t' [d|e]].
    + cbn. intros H. inversion H.
    + intros H. inversion H.
  - cbn. intros H. inversion H.
Qed.

Lemma extractEach_ok (extract : SceneNode -> M (option ExtractedNodeData)) nodes :
  Forall (fun n => exists t d, extract n = (t, Ok (Some d)) /\ Forall isConsoleLog t) nodes ->
  forall acc, exists t ds,
    extractEach extract nodes acc = (t, Ok (acc ++ ds)%list)
    /\ Forall isConsoleLog t
    /\ Forall2 (fun n d => exists t', extract n = (t', Ok (Some d))) nodes ds.
Proof.
  induction 1 as [|n nodes (t & d & E & L) _ IH]; intros acc.
  - exists [], []. cbn. rewrite app_nil_r. repeat split; constructor.
  - destruct (IH (acc ++ [d])%list) as (t' & ds & E' & L' & F).
    exists (t ++ t')%list, (d :: ds). cbn [extractEach]. unfold bind at 1.
    rewrite E, E'. rewrite <- app_assoc. split; [reflexivity|]. split.
    + apply Forall_app. split; assumption.
    + constructor; [eauto | exact F].
Qed.

Lemma extractEach_inv (extract : SceneNode -> M (option ExtractedNodeData)) :
  (forall n t, extract n <> (t, Ok None)) ->
  forall nodes acc t res,
    extractEach extract nodes acc = (t, Ok res) ->
    exists ds, res = (acc ++ ds)%list
      /\ Forall2 (fun n d => exists t', extract n = (t', Ok (Some d))) nodes ds.
Proof.
  intros NN. induction nodes as [|n nodes IH]; intros acc t res E.
  - cbn in E. injection E as _ <-. exists []. rewrite app_nil_r. split; constructor.
  - cbn [extractEach] in E. unfold bind at 1 in E.
    destruct (extract n) as [t1 [[d|]|e]] eqn:En.
    + destruct (extractEach extract nodes (acc ++ [d])%list) as [t2 r2] eqn:E2.
      injection E as _ ->.
      destruct (IH _ _ _ E2) as (ds & -> & F).
      exists (d :: ds). rewrite <- app_assoc. split; [reflexivity|].
      constructor; [eauto | exact F].
    + exfalso. exact (NN _ _ En).
    + discriminate E.
Qed.

Lemma extractNodeData_valid node :
  structurallyValid node = true ->
  exists t d, extractNodeData engine node = (t, Ok (Some d)) /\ Forall isConsoleLog t.
Proof.
  induction node as [node IH] using SceneNode_nested_ind.
  destruct node as [i n ty px py w h rot v cr fs ss sw pc st tx ch cs ce kids].
  cbn [structurallyValid extractNodeData node_type node_fills node_strokes node_text
         node_connectorStart node_connectorEnd node_children] in *.
  set (node := mkSceneNode i n ty px py w h rot v cr fs ss sw pc st tx ch cs ce kids).
  intros V.
  repeat match type of V with
         | (if ?c then _ else _) = true => destruct c
         end;
    repeat match type of V with
           | _ && _ = true => apply andb_true_iff in V as [V ?]
           end.
  - destruct (extractFills_ok fs) as [lf Ef]; [assumption|].
    destruct (extractStrokes_ok ss) as [ls Es]; [assumption|].
    exists []. eexists. split; [|constructor]. apply some_ok.
    unfold extractRectangleData. cbn [node_fills node_strokes node].
    rewrite Ef. cbn [bindRes]. rewrite Es. reflexivity.
  - destruct (extractFills_ok fs) as [lf Ef]; [assumption|].
    destruct (extractStrokes_ok ss) as [ls Es]; [assumption|].
    exists []. eexists. split; [|constructor]. apply some_ok.
    unfold extractEllipseData. cbn [node_fills node_strokes node].
    rewrite Ef. cbn [bindRes]. rewrite Es. reflexivity.
  - destruct (extractFills_ok fs) as [lf Ef]; [assumption|].
    destruct (extractStrokes_ok ss) as [ls Es]; [assumption|].
    exists []. eexists. split; [|constructor]. apply some_ok.
    unfold extractPolygonData. cbn [node_fills node_strokes node].
    rewrite Ef. cbn [bindRes]. rewrite Es. reflexivity.
  - destruct (extractFills_ok fs) as [lf Ef]; [assumption|].
    destruct (extractStrokes_ok ss) as [ls Es]; [assumption|].
    destruct tx as [tx|]; [|discriminate].
    exists []. eexists. split; [|constructor]. apply some_ok.
    unfold extractShapeWithTextData. cbn [node_fills node_strokes node_text node].
    rewrite Ef. cbn [bindRes]. rewrite Es. reflexivity.
  - destruct (extractFills_ok fs) as [lf Ef]; [assumption|].
    destruct tx as [tx|]; [|discriminate].
    exists []. eexists. split; [|constructor]. apply some_ok.
    unfold extractStickyData. cbn [node_fills node_text node].
    rewrite Ef. reflexivity.
  - destruct (extractFills_ok fs) as [lf Ef]; [assumption|].
    exists []. eexists. split; [|constructor]. apply some_ok.
    unfold extractTextData. cbn [node_fills node].
    rewrite Ef. reflexivity.
  - destruct (extractStrokes_ok ss) as [ls Es]; [assumption|].
    destruct cs as [cs|]; [|discriminate]. destruct ce as [ce|]; [|discriminate].
    exists []. eexists. split; [|constructor]. apply some_ok.
    unfold extractConnectorData. cbn [node_strokes node_connectorStart node_connectorEnd node].
    rewrite Es. reflexivity.
  - destruct kids as [l|]; [|discriminate V].
    rewrite forallb_forall in V.
    assert (F : Forall (fun n => exists t d, extractNodeData engine n = (t, Ok (Some d))
                                     /\ Forall isConsoleLog t) l).
    { specialize (IH l eq_refl). rewrite Forall_forall in IH |- *.
      intros c Hc. apply IH; [exact Hc | apply V, Hc]. }
    destruct (extractEach_ok _ _ F []) as (t & ds & E & L & _).
    exists t. eexists. unfold extractContainerData. cbn [node_children node].
    unfold bind at 2. rewrite E. cbn. rewrite !app_nil_r.
    split; [reflexivity | exact L].
  - eexists _, _. cbn. split; [reflexivity|]. repeat constructor.
Qed.

End ExtractionFacts.

(** ** The claims about extraction *)

(** C4. Given the "mixed" sentinel, [extractFills] (and [extractStrokes],
    which calls it) returns the empty sequence: it does not throw and it
    returns no item. *)
Theorem extractFills_mixed_is_empty :
  extractFills (Some Mixed) = Ok [] /\ extractStrokes (Some Mixed) = Ok [].
Proof. split; reflexivity. Qed.

(** C6. Extraction of a structurally valid host node does not throw and
    returns a record, logging at most; when the type tag is outside the
    supported set the record is the base record: identity, geometry and
    visibility of the node, and no variant-specific field. *)
Theorem extractNodeData_never_fails engine node :
  structurallyValid node = true ->
  exists t d,
    extractNodeData engine node = (t, Ok (Some d))
    /\ Forall isConsoleLog t
    /\ (~ In (node_type node) supportedTypes ->
        t = [ConsoleLog ("Unsupported node type: " ++ node_type node)]
        /\ d = baseDataOf node
        /\ (id d = node_id node /\ name d = node_name node /\ type d = node_type node
            /\ x d = node_x node /\ y d = node_y node /\ visible d = node_visible node)
        /\ (fills d = None /\ strokes d = None /\ strokeWeight d = None
            /\ text d = None /\ cornerRadius d = None /\ shapeType d = None
            /\ connectorStart d = None /\ connectorEnd d = None /\ children d = None)).
Proof.
  intros V. destruct (extractNodeData_valid engine node V) as (t & d & E & L).
  exists t, d. split; [exact E|]. split; [exact L|].
  intros U. cbn [supportedTypes In] in U.
  assert (X : extractNodeData engine node
              = ([ConsoleLog ("Unsupported node type: " ++ node_type node)],
                 Ok (Some (baseDataOf node)))).
  { destruct node as [i n ty px py w h rot v cr fs ss sw pc st tx ch cs ce kids].
    cbn [extractNodeData node_type] in *.
    repeat match goal with
           | |- context [(ty =? ?k)%string] =>
               destruct (String.eqb_spec ty k); [exfalso; apply U; subst ty; tauto|]
           end.
    reflexivity. }
  rewrite X in E. injection E as <- <-.
  repeat split; reflexivity.
Qed.

Lemma extractNodeData_never_fails_witness :
  structurallyValid scenarioRectangle = true
  /\ exists t d, extractNodeData sampleEngine scenarioRectangle = (t, Ok (Some d))
                 /\ Forall isConsoleLog t.
Proof.
  split; [reflexivity|].
  destruct (extractNodeData_never_fails sampleEngine scenarioRectangle eq_refl)
    as (t & d & E & L & _).
  exists t, d. split; assumption.
Defined.

(** C7. With an empty selection the walker posts the "no selection" error
    message and nothing else: no extraction has run and no data is sent.
    With a non-empty selection of structurally valid nodes it posts one
    data message whose records are the extractions of the selected nodes,
    one per node, in selection order. *)
Theorem processSelection_empty_or_in_order engine page :
  (page_selection page = [] -> processSelection engine page = [PostMessage noSelectionMessage])
  /\ (page_selection page <> [] ->
      Forall (fun n => structurallyValid n = true) (page_selection page) ->
      exists t ds,
        processSelection engine page
          = (t ++ [PostMessage (MsgDataReady ds (pageInfoOf page))])%list
        /\ Forall isConsoleLog t
        /\ Forall2 (extractsTo engine) (page_selection page) ds).
Proof.
  unfold processSelection. split.
  - intros ->. reflexivity.
  - intros NE V.
    assert (F : Forall (fun n => exists t d, extractNodeData engine n = (t, Ok (Some d))
                                     /\ Forall isConsoleLog t) (page_selection page)).
    { eapply Forall_impl; [|exact V]. intros n Vn. apply extractNodeData_valid, Vn. }
    destruct (extractEach_ok _ _ F []) as (t & ds & E & L & F2).
    cbn [app] in E. rewrite E.
    destruct (page_selection page) as [|n rest]; [contradiction|].
    exists t, ds. repeat split; assumption.
Qed.

Lemma processSelection_empty_or_in_order_witness :
  (page_selection scenarioPage <> []
   /\ Forall (fun n => structurallyValid n = true) (page_selection scenarioPage))
  /\ exists t ds,
       processSelection sampleEngine scenarioPage
         = (t ++ [PostMessage (MsgDataReady ds (pageInfoOf scenarioPage))])%list
       /\ Forall isConsoleLog t
       /\ Forall2 (extractsTo sampleEngine) (page_selection scenarioPage) ds.
Proof.
  assert (NE : page_selection scenarioPage <> []) by discriminate.
  assert (V : Forall (fun n => structurallyValid n = true) (page_selection scenarioPage))
    by (repeat constructor).
  split; [split; assumption|].
  exact (proj2 (processSelection_empty_or_in_order sampleEngine scenarioPage) NE V).
Defined.

(** C10. [extractNodeData] never returns null. Hence whenever the walker
    sends a data message its records are the extractions of the selected
    nodes, exactly one per node and in selection order; and whenever
    extraction of a Group or Frame returns, the children of the record are
    the extractions of the host children, exactly one per child and in the
    host's order. *)
Theorem extractNodeData_never_null engine :
  (forall node t, extractNodeData engine node <> (t, Ok None))
  /\ (forall page t ds info,
        processSelection engine page = (t ++ [PostMessage (MsgDataReady ds info)])%list ->
        Forall2 (extractsTo engine) (page_selection page) ds)
  /\ (forall node t d,
        node_type node = "GROUP" \/ node_type node = "FRAME" ->
        extractNodeData engine node = (t, Ok (Some d)) ->
        exists cs ds,
          node_children node = Some cs /\ children d = Some ds
          /\ Forall2 (extractsTo engine) cs ds).
Proof.
  split; [exact (extractNodeData_not_null engine)|]. split.
  - intros page t ds info. unfold processSelection.
    destruct (page_selection page) as [|n rest] eqn:S.
    + intros H. change [PostMessage (MsgError "Please select at least one object to export")]
        with ([] ++ [PostMessage (MsgError "Please select at least one object to export")])%list in H.
      apply app_inj_tail in H as [_ H]. discriminate H.
    + destruct (extractEach (extractNodeData engine) (n :: rest) []) as [t1 [res|e]] eqn:E;
        intros H; apply app_inj_tail in H as [_ H]; [|discriminate H].
      injection H as -> _.
      destruct (extractEach_inv _ (extractNodeData_not_null engine) _ _ _ _ E) as (ds' & -> & F).
      exact F.
  - intros node t d Ty E.
    destruct node as [i n ty px py w h rot v cr fs ss sw pc st tx ch cs ce kids].
    cbn [node_type node_children] in *.
    assert (X : extractNodeData engine
                  (mkSceneNode i n ty px py w h rot v cr fs ss sw pc st tx ch cs ce kids)
                = bind (extractContainerData (extractNodeData engine)
                          (mkSceneNode i n ty px py w h rot v cr fs ss sw pc st tx ch cs ce kids)
                          (baseDataOf
                             (mkSceneNode i n ty px py w h rot v cr fs ss sw pc st tx ch cs ce kids)))
                       (fun data => ret (Some data))).
    { cbn [extractNodeData node_type]. destruct Ty as [-> | ->]; reflexivity. }
    rewrite X in E. clear X. unfold extractContainerData in E. cbn [node_children] in E.
    destruct kids as [l|]; [|discriminate E].
    unfold bind at 2 in E.
    destruct (extractEach (extractNodeData engine) l []) as [t1 [res|e]] eqn:E1;
      [|discriminate E].
    cbn in E. injection E as _ <-.
    destruct (extractEach_inv _ (extractNodeData_not_null engine) _ _ _ _ E1) as (ds' & -> & F).
    exists l, ds'. split; [reflexivity|]. split; [reflexivity | exact F].
Qed.

Lemma extractNodeData_never_null_witness :
  processSelection sampleEngine scenarioPage
    = ([] ++ [PostMessage
                (MsgDataReady
                   [withStrokeWeight
                      (withStrokes
                         (withFills
                            (withCornerRadius (baseDataOf scenarioRectangle) (Some (ofZ 8)))
                            [Solid {| r := ofZ 255; g := ofZ 99; b := ofZ 51 |} (ofZ 1)])
                         [])
                      (Some (ofZ 1))]
                   (pageInfoOf scenarioPage))])%list
  /\ Forall2 (extractsTo sampleEngine) (page_selection scenarioPage)
       [withStrokeWeight
          (withStrokes
             (withFills
                (withCornerRadius (baseDataOf scenarioRectangle) (Some (ofZ 8)))
                [Solid {| r := ofZ 255; g := ofZ 99; b := ofZ 51 |} (ofZ 1)])
             [])
          (Some (ofZ 1))].
Proof.
  assert (E : processSelection sampleEngine scenarioPage
    = ([] ++ [PostMessage
                (MsgDataReady
                   [withStrokeWeight
                      (withStrokes
                         (withFills
                            (withCornerRadius (baseDataOf scenarioRectangle) (Some (ofZ 8)))
                            [Solid {| r := ofZ 255; g := ofZ 99; b := ofZ 51 |} (ofZ 1)])
                         [])
                      (Some (ofZ 1))]
                   (pageInfoOf scenarioPage))])%list) by (vm_compute; reflexivity).
  split; [exact E|].
  exact (proj1 (proj2 (extractNodeData_never_null sampleEngine)) _ _ _ _ E).
Defined.


(** ** The claims about the shape mapper *)

Import PptxConverter.

(** C2, as stated, fails: the table has a tenth entry, [LINE], which is not
    among the nine listed tags and is mapped to ["line"], not to
    ["shape"]; and a tag that names a member inherited from
    [Object.prototype] is mapped to that member. *)
Lemma mapNodeTypeToPPTX_nine_counterexample :
  ~ In "LINE" nineTags
  /\ mapNodeTypeToPPTX "LINE" = Str "line"
  /\ mapNodeTypeToPPTX "LINE" <> Str "shape"
  /\ ~ In "constructor" nineTags
  /\ mapNodeTypeToPPTX "constructor" <> Str "shape".
Proof.
  assert (N : forall t, In t nineTags ->
                existsb (String.eqb t) nineTags = true).
  { intros t H. apply existsb_exists. exists t. split; [exact H | apply String.eqb_refl]. }
  repeat split.
  - intros H. apply N in H. discriminate H.
  - discriminate.
  - intros H. apply N in H. discriminate H.
  - discriminate.
Qed.

(** C2, amended. The table has exactly ten entries: the nine listed ones
    and [LINE] -> ["line"]. Every tag of the table is mapped to its entry;
    every tag that is neither in the table nor the name of a member
    inherited from [Object.prototype] is mapped to ["shape"]. The mapping
    is a total function: it never throws. *)
Theorem mapNodeTypeToPPTX_table nodeType :
  map fst mapping = (nineTags ++ ["LINE"])%list
  /\ map snd mapping
     = ["rectangle"; "ellipse"; "polygon"; "shape"; "textbox"; "text"; "line";
        "group"; "frame"; "line"]
  /\ (forall v, In (nodeType, v) mapping -> mapNodeTypeToPPTX nodeType = Str v)
  /\ (~ In nodeType (map fst mapping) -> ~ In nodeType objectPrototypeKeys ->
      mapNodeTypeToPPTX nodeType = Str "shape").
Proof.
  split; [reflexivity|]. split; [reflexivity|]. split.
  - intros v H. cbn [mapping In] in H.
    repeat match type of H with
           | _ \/ _ => destruct H as [H|H]
           end;
      try contradiction; injection H as <- <-; reflexivity.
  - intros NT NP. unfold mapNodeTypeToPPTX.
    assert (O : ownProperty mapping nodeType = None).
    { cbn [mapping map fst In] in NT. cbn [mapping ownProperty].
      repeat match goal with
             | |- context [(?k =? nodeType)%string] =>
                 destruct (String.eqb_spec k nodeType); [exfalso; apply NT; tauto|]
             end.
      reflexivity. }
    rewrite O.
    destruct (existsb (String.eqb nodeType) objectPrototypeKeys) eqn:E; [|reflexivity].
    apply existsb_exists in E as (k & Hk & Ek).
    apply String.eqb_eq in Ek. subst k. contradiction.
Qed.

Lemma mapNodeTypeToPPTX_table_witness :
  (In ("STICKY", "textbox") mapping
   /\ ~ In "STAR" (map fst mapping) /\ ~ In "STAR" objectPrototypeKeys)
  /\ mapNodeTypeToPPTX "STICKY" = Str "textbox"
  /\ mapNodeTypeToPPTX "STAR" = Str "shape".
Proof.
  assert (A : In ("STICKY", "textbox") mapping) by (cbn; tauto).
  assert (B : ~ In "STAR" (map fst mapping)).
  { cbn. intros H.
    repeat match type of H with
           | _ \/ _ => destruct H as [H|H]
           end; try discriminate H; exact H. }
  assert (C : ~ In "STAR" objectPrototypeKeys).
  { cbn. intros H.
    repeat match type of H with
           | _ \/ _ => destruct H as [H|H]
           end; try discriminate H; exact H. }
  split; [repeat split; assumption|]. split.
  - exact (proj1 (proj2 (proj2 (mapNodeTypeToPPTX_table "STICKY"))) _ A).
  - exact (proj2 (proj2 (proj2 (mapNodeTypeToPPTX_table "STAR"))) B C).
Defined.

(** C3, as stated, fails: a node whose only fill is an image has a
    non-empty fills sequence and a record without fill; a node with a solid
    stroke and no stroke weight has a non-empty strokes sequence and a
    record without stroke. *)
Lemma nodeToShape_first_paint_counterexample :
  (exists f, fills imageFilled = Some [f])
  /\ shape_fill (nodeToShape imageFilled) = None
  /\ (exists s, strokes strokedNoWeight = Some [s])
  /\ shape_stroke (nodeToShape strokedNoWeight) = None.
Proof.
  split; [eexists; reflexivity|]. split; [reflexivity|].
  split; [eexists; reflexivity | reflexivity].
Qed.

(** C3, amended. The record's fill is built from the first fill, and only
    when that fill is solid (its colour and opacity) or a gradient (its
    stops and opacity); the record's stroke is built from the first stroke,
    and only when that stroke is solid and the node's stroke weight is set
    and non-zero (its colour and opacity, with that weight). Later paints
    never matter, nothing throws, and without a first paint there is no
    fill, respectively no stroke. *)
Theorem nodeToShape_first_paint node :
  (forall f rest, fills node = Some (f :: rest) ->
     shape_fill (nodeToShape node) = fillOfPaint f)
  /\ (fills node = None \/ fills node = Some [] -> shape_fill (nodeToShape node) = None)
  /\ (shape_fill (nodeToShape node) <> None <->
      exists f rest, fills node = Some (f :: rest)
                     /\ (paintType f = "solid" \/ paintType f = "gradient"))
  /\ (forall s rest w, strokes node = Some (s :: rest) -> strokeWeight node = Some w ->
     truthy w = true ->
     shape_stroke (nodeToShape node) = strokeOfPaint w s)
  /\ (strokes node = None \/ strokes node = Some [] -> shape_stroke (nodeToShape node) = None)
  /\ (shape_stroke (nodeToShape node) <> None <->
      exists s rest w, strokes node = Some (s :: rest) /\ paintType s = "solid"
                       /\ strokeWeight node = Some w /\ truthy w = true).
Proof.
  unfold nodeToShape. cbn [shape_fill shape_stroke].
  split; [|split; [|split; [|split; [|split]]]].
  - intros f rest ->. destruct f; reflexivity.
  - intros [-> | ->]; reflexivity.
  - split.
    + intros H. destruct (fills node) as [[|f rest]|]; try (exfalso; apply H; reflexivity).
      exists f, rest. split; [reflexivity|].
      destruct f; cbn; try tauto; exfalso; apply H; reflexivity.
    + intros (f & rest & -> & [T|T]); destruct f; cbn in T; try discriminate T;
        intros H; discriminate H.
  - intros s rest w -> -> T. rewrite T. destruct s; reflexivity.
  - intros [-> | ->]; reflexivity.
  - split.
    + intros H.
      destruct (strokes node) as [[|s rest]|]; try (exfalso; apply H; reflexivity).
      destruct (strokeWeight node) as [w|]; [|exfalso; apply H; reflexivity].
      destruct (truthy w) eqn:T; [|exfalso; apply H; reflexivity].
      exists s, rest, w.
      destruct s; try (exfalso; apply H; reflexivity).
      repeat split; reflexivity || assumption.
    + intros (s & rest & w & -> & P & -> & T). rewrite T.
      destruct s; cbn in P; try discriminate P. intros H; discriminate H.
Qed.

Lemma nodeToShape_first_paint_witness :
  (fills (withFills (blankExtracted "RECTANGLE") [Solid white (ofZ 1); Unknown])
   = Some [Solid white (ofZ 1); Unknown])
  /\ shape_fill (nodeToShape (withFills (blankExtracted "RECTANGLE")
                                [Solid white (ofZ 1); Unknown]))
     = fillOfPaint (Solid white (ofZ 1)).
Proof.
  split; [reflexivity|].
  exact (proj1 (nodeToShape_first_paint
                  (withFills (blankExtracted "RECTANGLE") [Solid white (ofZ 1); Unknown]))
           _ _ eq_refl).
Defined.

(** C1, as stated, fails: the green channel 0.39 scales to 99.45, which
    rounds to 99, so the fill colour of the record is not (255, 100, 51). *)
Lemma scenario_rectangle_counterexample :
  ~ (exists d f,
       extractNodeData sampleEngine scenarioRectangle = ([], Ok (Some d))
       /\ shape_fill (nodeToShape d) = Some f
       /\ fill_color f = Some {| r := ofZ 255; g := ofZ 100; b := ofZ 51 |}).
Proof.
  intros (d & f & E & F & C).
  vm_compute in E. injection E as <-.
  vm_compute in F. injection F as <-.
  vm_compute in C. discriminate C.
Qed.

(** C1, amended. For the selection made of the scenario's rectangle the
    walker sends one record, and the shape record the JSON export builds
    from it has type ["rectangle"], fill colour (255, 99, 51) and corner
    radius 8. *)
Theorem scenario_rectangle_shape engine now :
  exists d shape f p,
    processSelection engine scenarioPage
      = [PostMessage (MsgDataReady [d] (pageInfoOf scenarioPage))]
    /\ doc_shapes (toJSON_output now [d] (pageInfoOf scenarioPage)) = [shape]
    /\ shape_type shape = Str "rectangle"
    /\ shape_fill shape = Some f
    /\ fill_color f = Some {| r := ofZ 255; g := ofZ 99; b := ofZ 51 |}
    /\ shape_properties shape = Some p
    /\ prop_cornerRadius p = Some (ofZ 8).
Proof.
  do 4 eexists.
  split; [vm_compute; reflexivity|].
  split; [reflexivity|].
  split; [reflexivity|].
  split; [reflexivity|].
  split; [reflexivity|].
  split; reflexivity.
Qed.

(** ** The claims about the XML serializer *)

(** The gradient sub-kind tag is written as it is: a tag that starts with
    [GRADIENT] and contains an ampersand, which is none of the host's four
    gradient types, would pass extraction and reach the attribute value
    unescaped. *)
Remark gradient_type_is_inserted_unescaped engine :
  extractPaint {| paint_type := "GRADIENT_A&B"; paint_visible := None;
                  paint_opacity := None; paint_color := None;
                  paint_imageHash := None; paint_scaleMode := None;
                  paint_gradientStops := Some [] |}
    = Ok (Gradient "GRADIENT_A&B" [] (ofZ 1))
  /\ fills gradientAmp = Some [Gradient "GRADIENT_A&B" [] (ofZ 1)]
  /\ fillToXML engine "" gradientAmp
     = "  <fill>" ++ nl
       ++ "    <gradient type=" ++ dq ++ "GRADIENT_A&B" ++ dq ++ ">" ++ nl
       ++ "    </gradient>" ++ nl
       ++ "  </fill>" ++ nl
  /\ escapeXML engine (Str "GRADIENT_A&B") = "GRADIENT_A&amp;B".
Proof. repeat split. Qed.

(** C9. With a stroke weight that is set to 0 the stroke element carries
    the weight 1, not 0. *)
Theorem zero_stroke_weight_is_emitted_as_one :
  strokeWeight strokedZeroWeight = Some (ofZ 0)
  /\ integerToString (ofZ 0) = "0"
  /\ strokeToXML sampleEngine "" strokedZeroWeight
     = "  <stroke weight=" ++ dq ++ "1" ++ dq ++ ">" ++ nl
       ++ "    <color r=" ++ dq ++ "255" ++ dq ++ " g=" ++ dq ++ "255" ++ dq
       ++ " b=" ++ dq ++ "255" ++ dq ++ " opacity=" ++ dq ++ "1" ++ dq ++ "/>" ++ nl
       ++ "  </stroke>" ++ nl.
Proof. repeat split. Qed.

(** ** Further properties: XML escaping *)

Lemma append_assoc_string (s1 s2 s3 : string) : (s1 ++ s2) ++ s3 = s1 ++ (s2 ++ s3).
Proof. induction s1 as [|c s1 IH]; cbn; [reflexivity | now rewrite IH]. Qed.

Lemma replaceAll_app c by_ s1 s2 :
  replaceAll c by_ (s1 ++ s2) = replaceAll c by_ s1 ++ replaceAll c by_ s2.
Proof.
  induction s1 as [|a s1 IH]; cbn [append replaceAll]; [reflexivity|].
  rewrite IH. destruct (Ascii.eqb a c); [now rewrite append_assoc_string | reflexivity].
Qed.

Lemma escapeString_app s1 s2 :
  escapeString (s1 ++ s2) = escapeString s1 ++ escapeString s2.
Proof. unfold escapeString. now rewrite !replaceAll_app. Qed.

Lemma escapeChar_cases c :
  (c = c_amp \/ c = c_lt \/ c = c_gt \/ c = c_quot \/ c = c_apos)
  \/ (isSpecial c = false /\ escapeChar c = String c EmptyString
      /\ escapeString (String c EmptyString) = String c EmptyString).
Proof.
  unfold isSpecial, isMarkup, escapeChar, escapeString.
  destruct (Ascii.eqb_spec c c_amp); [tauto|].
  destruct (Ascii.eqb_spec c c_lt); [tauto|].
  destruct (Ascii.eqb_spec c c_gt); [tauto|].
  destruct (Ascii.eqb_spec c c_quot); [tauto|].
  destruct (Ascii.eqb_spec c c_apos); [tauto|].
  right. cbn [replaceAll].
  repeat match goal with
         | H : c <> ?k |- context [Ascii.eqb c ?k] =>
             rewrite (proj2 (Ascii.eqb_neq c k) H); cbn [replaceAll]
         end.
  repeat split.
Qed.

Lemma escapeString_char c : escapeString (String c EmptyString) = escapeChar c.
Proof.
  destruct (escapeChar_cases c) as [[-> | [-> | [-> | [-> | ->]]]] | (_ & -> & ->)];
    reflexivity.
Qed.

Lemma escapeString_escapeEach s : escapeString s = escapeEach s.
Proof.
  induction s as [|c s IH]; [reflexivity|].
  change (String c s) with (String c EmptyString ++ s).
  rewrite escapeString_app, escapeString_char, IH. reflexivity.
Qed.

(** X1. The chain of five replacements in [escapeXML] rewrites each
    character of the input exactly once: [&], [<], [>], the double quote
    and the apostrophe become their entity and every other character is
    copied; in particular the ampersand of an entity written by a later
    replacement is never escaped a second time. *)
Theorem escapeXML_is_per_character engine s :
  escapeXML engine (Str s) = escapeEach s.
Proof. cbn [escapeXML]. apply escapeString_escapeEach. Qed.

Lemma allChars_app P s1 s2 : allChars P (s1 ++ s2) = allChars P s1 && allChars P s2.
Proof.
  induction s1 as [|c s1 IH]; cbn [append allChars]; [reflexivity|].
  now rewrite IH, andb_assoc.
Qed.

Lemma escapeChar_no_markup c :
  allChars (fun a => negb (isMarkup a)) (escapeChar c) = true.
Proof.
  destruct (escapeChar_cases c) as [[-> | [-> | [-> | [-> | ->]]]] | (N & -> & _)];
    try reflexivity.
  cbn [allChars]. unfold isSpecial in N. apply orb_false_iff in N as [_ ->]. reflexivity.
Qed.

(** X2. The text [escapeXML] returns contains no [<], no [>], no double
    quote and no apostrophe, whatever the input: it cannot close the
    element or the attribute value it is written into. *)
Theorem escapeXML_output_has_no_markup engine s :
  allChars (fun a => negb (isMarkup a)) (escapeXML engine (Str s)) = true.
Proof.
  cbn [escapeXML]. rewrite escapeString_escapeEach.
  induction s as [|c s IH]; [reflexivity|].
  cbn [escapeEach]. rewrite allChars_app, escapeChar_no_markup, IH. reflexivity.
Qed.

Lemma escapeChar_head_inj c1 c2 r1 r2 :
  escapeChar c1 ++ r1 = escapeChar c2 ++ r2 -> c1 = c2 /\ r1 = r2.
Proof.
  destruct (escapeChar_cases c1) as [[-> | [-> | [-> | [-> | ->]]]] | (N1 & -> & _)];
    destruct (escapeChar_cases c2) as [[-> | [-> | [-> | [-> | ->]]]] | (N2 & -> & _)];
    cbn; intros H; try discriminate H;
    try (injection H as ->; split; reflexivity);
    try (injection H as <- _; discriminate N2);
    try (injection H as -> _; discriminate N1).
  injection H as -> ->. split; reflexivity.
Qed.

Lemma escapeChar_nonempty c r : escapeChar c ++ r <> EmptyString.
Proof.
  destruct (escapeChar_cases c) as [[-> | [-> | [-> | [-> | ->]]]] | (_ & -> & _)];
    discriminate.
Qed.

(** X3. [escapeXML] loses no information: two different texts never have
    the same escaped form. *)
Theorem escapeXML_injective engine s1 s2 :
  escapeXML engine (Str s1) = escapeXML engine (Str s2) -> s1 = s2.
Proof.
  cbn [escapeXML]. rewrite !escapeString_escapeEach. revert s2.
  induction s1 as [|c1 s1 IH]; intros [|c2 s2]; cbn [escapeEach]; intros H.
  - reflexivity.
  - symmetry in H. exfalso. exact (escapeChar_nonempty _ _ H).
  - exfalso. exact (escapeChar_nonempty _ _ H).
  - apply escapeChar_head_inj in H as [-> H]. f_equal. apply IH, H.
Qed.

Lemma escapeXML_injective_witness :
  escapeXML sampleEngine (Str "A & B") = escapeXML sampleEngine (Str "A & B")
  /\ "A & B" = "A & B".
Proof.
  split; [reflexivity|].
  exact (escapeXML_injective sampleEngine "A & B" "A & B" eq_refl).
Defined.

(** X4. A text without any of the five special characters is returned
    unchanged by [escapeXML]. *)
Theorem escapeXML_plain_text_unchanged engine s :
  allChars (fun a => negb (isSpecial a)) s = true -> escapeXML engine (Str s) = s.
Proof.
  cbn [escapeXML]. rewrite escapeString_escapeEach.
  induction s as [|c s IH]; [reflexivity|].
  cbn [allChars escapeEach]. intros H. apply andb_true_iff in H as [Hc Hs].
  rewrite (IH Hs).
  destruct (escapeChar_cases c) as [[-> | [-> | [-> | [-> | ->]]]] | (_ & -> & _)];
    try discriminate Hc.
  reflexivity.
Qed.

Lemma escapeXML_plain_text_unchanged_witness :
  allChars (fun a => negb (isSpecial a)) "Rectangle 1" = true
  /\ escapeXML sampleEngine (Str "Rectangle 1") = "Rectangle 1".
Proof.
  split; [reflexivity|].
  exact (escapeXML_plain_text_unchanged sampleEngine "Rectangle 1" eq_refl).
Defined.

(** ** Further properties: paint normalisation *)

Lemma mapRes_inv {A B} (f : A -> Res B) (l : list A) :
  forall res, mapRes f l = Ok res -> Forall2 (fun a b => f a = Ok b) l res.
Proof.
  induction l as [|a l IH]; cbn [mapRes]; intros res E.
  - injection E as <-. constructor.
  - destruct (f a) as [b|] eqn:Ea; [|discriminate E]. cbn [bindRes] in E.
    destruct (mapRes f l) as [bs|]; [|discriminate E]. cbn [bindRes] in E.
    injection E as <-. constructor; [exact Ea | apply IH; reflexivity].
Qed.

Lemma extractPaint_ok_inv p q : extractPaint p = Ok q -> validPaint p = true.
Proof.
  unfold validPaint, extractPaint.
  destruct (paint_type p =? "SOLID")%string.
  - destruct (paint_color p); [reflexivity | discriminate].
  - destruct (paint_type p =? "IMAGE")%string; [reflexivity|].
    destruct (startsWith (paint_type p) "GRADIENT"); [|reflexivity].
    destruct (paint_gradientStops p); [reflexivity | discriminate].
Qed.

Lemma filter_paintShown_all l :
  Forall (fun p => paint_visible p <> Some false) l -> filter paintShown l = l.
Proof.
  induction 1 as [|p l Hp _ IH]; [reflexivity|].
  cbn [filter]. unfold paintShown at 1.
  destruct (paint_visible p) as [[|]|]; now rewrite IH.
Qed.

(** X5. A paint whose [visible] member is [false] has no effect on what
    [extractFills] returns, wherever it stands in the array and even when
    it lacks the members of its kind: the result, or the error, is that of
    the array without it. When no paint of the array has [visible] equal to
    [false], the result has one normalised paint per host paint, in the
    host's order, and [extractFills] throws if and only if some paint
    lacks the member its kind needs. *)
Theorem extractFills_drops_invisible_paints :
  (forall l1 p l2, paint_visible p = Some false ->
     extractFills (Some (Paints (l1 ++ p :: l2)%list))
     = extractFills (Some (Paints (l1 ++ l2)%list)))
  /\ (forall l, Forall (fun p => paint_visible p <> Some false) l ->
        (forall res, extractFills (Some (Paints l)) = Ok res ->
           Forall2 (fun p q => extractPaint p = Ok q) l res)
        /\ ((exists res, extractFills (Some (Paints l)) = Ok res)
            <-> forallb validPaint l = true)).
Proof.
  split.
  - intros l1 p l2 Hp. cbn [extractFills]. rewrite !filter_app. cbn [filter].
    unfold paintShown at 2. rewrite Hp. reflexivity.
  - intros l V. cbn [extractFills]. rewrite (filter_paintShown_all l V).
    split; [apply mapRes_inv|]. split.
    + intros [res E]. apply mapRes_inv in E. apply forallb_forall. intros p Hp.
      clear V. revert Hp. induction E as [|p' q ps qs Hq _ IH]; cbn [In]; [tauto|].
      intros [<- | Hp]; [exact (extractPaint_ok_inv _ _ Hq) | exact (IH Hp)].
    + intros W. rewrite forallb_forall in W.
      destruct (mapRes_ok extractPaint l) as (bs & E & _); [|eauto].
      apply Forall_forall. intros p Hp. apply extractPaint_ok, W, Hp.
Qed.

Lemma extractFills_drops_invisible_paints_witness :
  paint_visible hiddenPaint = Some false
  /\ extractFills
       (Some (Paints ([] ++ hiddenPaint
                         :: [solidPaint (ofZ 1) (ofZ 0) (ofZ 0) None])%list))
     = extractFills (Some (Paints ([] ++ [solidPaint (ofZ 1) (ofZ 0) (ofZ 0) None])%list)).
Proof.
  split; [reflexivity|].
  exact (proj1 extractFills_drops_invisible_paints [] hiddenPaint
           [solidPaint (ofZ 1) (ofZ 0) (ofZ 0) None] eq_refl).
Defined.

Lemma scaleChannel_byte c : in_unit_interval c -> isByte (scaleChannel c).
Proof.
  intros H.
  destruct (scaleChannel_value 1074 (Z.le_refl _) c H) as (T & _ & B).
  exists (chanZ 1074 (sval 1074 c)). split; [exact T|].
  apply chanZ_range; [apply Z.le_refl | exact B].
Qed.

(** X6. A solid host paint whose three channels lie between 0 and 1 is
    normalised to a solid paint whose three channels are integers between
    0 and 255, with the host opacity, or 1 when the host gives none. *)
Theorem extractPaint_solid_channels_are_bytes fill c :
  paint_type fill = "SOLID" -> paint_color fill = Some c ->
  in_unit_interval (r c) -> in_unit_interval (g c) -> in_unit_interval (b c) ->
  exists col,
    extractPaint fill = Ok (Solid col (opacityOrOne (paint_opacity fill)))
    /\ isByte (r col) /\ isByte (g col) /\ isByte (b col)
    /\ (paint_opacity fill = None -> opacityOrOne (paint_opacity fill) = ofZ 1)
    /\ (forall o, paint_opacity fill = Some o -> opacityOrOne (paint_opacity fill) = o).
Proof.
  intros T C Hr Hg Hb. unfold extractPaint. rewrite T, C. cbn [String.eqb Ascii.eqb Bool.eqb].
  eexists. split; [reflexivity|]. cbn [r g b].
  repeat split; try (apply scaleChannel_byte; assumption).
  - intros ->. reflexivity.
  - intros o ->. reflexivity.
Qed.

Lemma extractPaint_solid_channels_are_bytes_witness :
  exists col,
    extractPaint (solidPaint (ofZ 1) (decimal 39 100) (decimal 2 10) None)
      = Ok (Solid col (ofZ 1))
    /\ isByte (r col) /\ isByte (g col) /\ isByte (b col).
Proof.
  assert (U : forall n d, valid (decimal n d) = true -> le (ofZ 0) (decimal n d) = true ->
                          le (decimal n d) (ofZ 1) = true -> in_unit_interval (decimal n d))
    by (intros n d V L0 L1; repeat split; assumption).
  destruct (extractPaint_solid_channels_are_bytes
              (solidPaint (ofZ 1) (decimal 39 100) (decimal 2 10) None)
              {| r := ofZ 1; g := decimal 39 100; b := decimal 2 10 |}
              eq_refl eq_refl)
    as (col & E & Br & Bg & Bb & _).
  - repeat split.
  - apply U; vm_compute; reflexivity.
  - apply U; vm_compute; reflexivity.
  - exists col. repeat split; assumption.
Defined.

(** X7. A gradient host paint (any type that starts with [GRADIENT]) is
    normalised to a gradient paint that keeps the host's type tag and has
    one stop per host stop, in the host's order, each with the host stop's
    position and alpha and with the three colour channels scaled by 255 and
    rounded. *)
Theorem extractPaint_gradient_keeps_stops fill stops :
  paint_type fill <> "SOLID" -> paint_type fill <> "IMAGE" ->
  startsWith (paint_type fill) "GRADIENT" = true ->
  paint_gradientStops fill = Some stops ->
  exists stops',
    extractPaint fill
      = Ok (Gradient (paint_type fill) stops' (opacityOrOne (paint_opacity fill)))
    /\ Forall2 (fun s s' =>
                  position s' = position s
                  /\ sa (color s') = sa (color s)
                  /\ sr (color s') = scaleChannel (sr (color s))
                  /\ sg (color s') = scaleChannel (sg (color s))
                  /\ sb (color s') = scaleChannel (sb (color s)))
         stops stops'.
Proof.
  intros NS NI G S. unfold extractPaint.
  rewrite (proj2 (String.eqb_neq _ _) NS), (proj2 (String.eqb_neq _ _) NI), G, S.
  eexists. split; [reflexivity|].
  clear S. induction stops as [|s stops IH]; cbn [map]; constructor; [|exact IH].
  repeat split.
Qed.

Lemma extractPaint_gradient_keeps_stops_witness :
  exists stops',
    extractPaint {| paint_type := "GRADIENT_LINEAR"; paint_visible := None;
                    paint_opacity := None; paint_color := None;
                    paint_imageHash := None; paint_scaleMode := None;
                    paint_gradientStops :=
                      Some [ {| position := ofZ 0;
                                color := {| sr := ofZ 1; sg := ofZ 0; sb := ofZ 0;
                                            sa := ofZ 1 |} |} ] |}
      = Ok (Gradient "GRADIENT_LINEAR" stops' (ofZ 1))
    /\ List.length stops' = 1%nat.
Proof.
  destruct (extractPaint_gradient_keeps_stops
              {| paint_type := "GRADIENT_LINEAR"; paint_visible := None;
                 paint_opacity := None; paint_color := None;
                 paint_imageHash := None; paint_scaleMode := None;
                 paint_gradientStops :=
                   Some [ {| position := ofZ 0;
                             color := {| sr := ofZ 1; sg := ofZ 0; sb := ofZ 0;
                                         sa := ofZ 1 |} |} ] |}
              _ ltac:(discriminate) ltac:(discriminate) eq_refl eq_refl)
    as (stops' & E & F).
  exists stops'. split; [exact E|].
  apply Forall2_length in F. symmetry. exact F.
Defined.

(** ** Further properties: node extraction *)

Ltac break_res H :=
  repeat match type of H with
         | bindRes ?m _ = _ =>
             let v := fresh "v" in
             destruct m as [v|] eqn:?; cbn [bindRes] in H; [|discriminate H]
         end.

Lemma some_inv {A} (m : Res A) t (a : A) : some m = (t, Ok (Some a)) -> m = Ok a.
Proof.
  unfold some, lift. destruct m as [a'|e]; cbn [bindRes]; intros H; inversion H.
  reflexivity.
Qed.

(** The record extraction returns for a node is the base record of the
    node with some variant fields set. *)
Lemma extractNodeData_shape engine node t d :
  extractNodeData engine node = (t, Ok (Some d)) ->
  exists fs ss sw tx cr st cs ce kids,
    d = mkExtracted (node_id node) (node_name node) (node_type node)
          (node_x node) (node_y node)
          (width (baseDataOf node)) (height (baseDataOf node))
          (rotation (baseDataOf node)) (node_visible node)
          fs ss sw tx cr st cs ce kids
    /\ Spec.isSome fs
       = existsb (String.eqb (node_type node))
           ["RECTANGLE"; "ELLIPSE"; "POLYGON"; "SHAPE_WITH_TEXT"; "STICKY"; "TEXT"]
    /\ Spec.isSome ss
       = existsb (String.eqb (node_type node))
           ["RECTANGLE"; "ELLIPSE"; "POLYGON"; "SHAPE_WITH_TEXT"; "CONNECTOR"]
    /\ Spec.isSome cs = (node_type node =? "CONNECTOR")%string
    /\ Spec.isSome ce = (node_type node =? "CONNECTOR")%string
    /\ Spec.isSome kids
       = ((node_type node =? "GROUP") || (node_type node =? "FRAME"))%string.
Proof.
  destruct node as [i n ty px py w h rot v cr fs ss sw pc st tx ch cs ce kids].
  cbn [extractNodeData node_type node_id node_name node_x node_y node_visible].
  set (node := mkSceneNode i n ty px py w h rot v cr fs ss sw pc st tx ch cs ce kids).
  destruct (String.eqb_spec ty "RECTANGLE") as [->|N1].
  { intros E. apply some_inv in E. unfold extractRectangleData in E. break_res E.
    injection E as <-. do 9 eexists. split; [reflexivity|]. repeat split. }
  destruct (String.eqb_spec ty "ELLIPSE") as [->|N2].
  { intros E. apply some_inv in E. unfold extractEllipseData in E. break_res E.
    injection E as <-. do 9 eexists. split; [reflexivity|]. repeat split. }
  destruct (String.eqb_spec ty "POLYGON") as [->|N3].
  { intros E. apply some_inv in E. unfold extractPolygonData in E. break_res E.
    injection E as <-. do 9 eexists. split; [reflexivity|]. repeat split. }
  destruct (String.eqb_spec ty "SHAPE_WITH_TEXT") as [->|N4].
  { intros E. apply some_inv in E. unfold extractShapeWithTextData in E. break_res E.
    injection E as <-. do 9 eexists. split; [reflexivity|]. repeat split. }
  destruct (String.eqb_spec ty "STICKY") as [->|N5].
  { intros E. apply some_inv in E. unfold extractStickyData in E. break_res E.
    injection E as <-. do 9 eexists. split; [reflexivity|]. repeat split. }
  destruct (String.eqb_spec ty "TEXT") as [->|N6].
  { intros E. apply some_inv in E. unfold extractTextData in E. break_res E.
    injection E as <-. do 9 eexists. split; [reflexivity|]. repeat split. }
  destruct (String.eqb_spec ty "CONNECTOR") as [->|N7].
  { intros E. apply some_inv in E. unfold extractConnectorData in E. break_res E.
    injection E as <-. do 9 eexists. split; [reflexivity|]. repeat split. }
  assert (F : forall k, ty <> k -> (ty =? k)%string = false)
    by (intros k; apply String.eqb_neq).
  destruct ((ty =? "GROUP") || (ty =? "FRAME"))%string eqn:C.
  - unfold bind at 1.
    destruct (extractContainerData (extractNodeData engine) node (baseDataOf node))
      as [t1 [data|e]] eqn:E1; [|discriminate].
    cbn. intros E. injection E as _ <-.
    unfold extractContainerData in E1. destruct (node_children node) as [l|]; [|discriminate E1].
    unfold bind in E1.
    destruct (extractEach (extractNodeData engine) l []) as [t2 [res|e]]; [|discriminate E1].
    cbn in E1. injection E1 as _ <-.
    do 9 eexists. split; [reflexivity|]. cbn [Spec.isSome existsb].
    rewrite !F by assumption. repeat split.
  - cbn. intros E. injection E as _ <-.
    do 9 eexists. split; [reflexivity|]. cbn [Spec.isSome existsb].
    rewrite !F by assumption. repeat split.
Qed.

(** X8. Whatever the node variant, the record extraction returns carries
    the host node's id, name, type tag, position and visibility unchanged,
    and its width, height and rotation, each replaced by 0 when the host
    node has no such member. *)
Theorem extractNodeData_keeps_identity_and_geometry engine node t d :
  extractNodeData engine node = (t, Ok (Some d)) ->
  id d = node_id node /\ name d = node_name node /\ type d = node_type node
  /\ x d = node_x node /\ y d = node_y node /\ visible d = node_visible node
  /\ width d = match node_width node with Some w => w | None => ofZ 0 end
  /\ height d = match node_height node with Some h => h | None => ofZ 0 end
  /\ rotation d = match node_rotation node with Some a => a | None => ofZ 0 end.
Proof.
  intros E.
  destruct (extractNodeData_shape _ _ _ _ E)
    as (fs & ss & sw & tx & cr & st & cs & ce & kids & -> & _).
  repeat split.
Qed.

Lemma extractNodeData_keeps_identity_and_geometry_witness :
  extractNodeData sampleEngine (blankNode "STAR")
    = ([ConsoleLog "Unsupported node type: STAR"], Ok (Some (blankExtracted "STAR")))
  /\ id (blankExtracted "STAR") = node_id (blankNode "STAR").
Proof.
  assert (E : extractNodeData sampleEngine (blankNode "STAR")
              = ([ConsoleLog "Unsupported node type: STAR"],
                 Ok (Some (blankExtracted "STAR")))) by reflexivity.
  split; [exact E|].
  exact (proj1 (extractNodeData_keeps_identity_and_geometry _ _ _ _ E)).
Defined.

(** X9. Which variant fields the extracted record has is decided by the
    type tag alone: [children] exactly for GROUP and FRAME; [fills] exactly
    for RECTANGLE, ELLIPSE, POLYGON, SHAPE_WITH_TEXT, STICKY and TEXT;
    [strokes] exactly for RECTANGLE, ELLIPSE, POLYGON, SHAPE_WITH_TEXT and
    CONNECTOR (so never for a sticky note or a text); the two connector
    endpoints exactly for CONNECTOR. *)
Theorem extractNodeData_variant_fields engine node t d :
  extractNodeData engine node = (t, Ok (Some d)) ->
  Spec.isSome (children d)
    = ((node_type node =? "GROUP") || (node_type node =? "FRAME"))%string
  /\ Spec.isSome (fills d)
     = existsb (String.eqb (node_type node))
         ["RECTANGLE"; "ELLIPSE"; "POLYGON"; "SHAPE_WITH_TEXT"; "STICKY"; "TEXT"]
  /\ Spec.isSome (strokes d)
     = existsb (String.eqb (node_type node))
         ["RECTANGLE"; "ELLIPSE"; "POLYGON"; "SHAPE_WITH_TEXT"; "CONNECTOR"]
  /\ Spec.isSome (connectorStart d) = (node_type node =? "CONNECTOR")%string
  /\ Spec.isSome (connectorEnd d) = (node_type node =? "CONNECTOR")%string.
Proof.
  intros E.
  destruct (extractNodeData_shape _ _ _ _ E)
    as (fs & ss & sw & tx & cr & st & cs & ce & kids & -> & Hf & Hs & Hcs & Hce & Hk).
  cbn [children fills strokes connectorStart connectorEnd].
  repeat split; assumption.
Qed.

Lemma extractNodeData_variant_fields_witness :
  extractNodeData sampleEngine (blankNode "STAR")
    = ([ConsoleLog "Unsupported node type: STAR"], Ok (Some (blankExtracted "STAR")))
  /\ Spec.isSome (children (blankExtracted "STAR")) = false.
Proof.
  assert (E : extractNodeData sampleEngine (blankNode "STAR")
              = ([ConsoleLog "Unsupported node type: STAR"],
                 Ok (Some (blankExtracted "STAR")))) by reflexivity.
  split; [exact E|].
  exact (proj1 (extractNodeData_variant_fields _ _ _ _ E)).
Defined.

(** ** Further properties: the selection walker *)

Lemma extractEach_trace (extract : SceneNode -> M (option ExtractedNodeData)) nodes :
  Forall (fun n => Forall isConsoleLog (fst (extract n))) nodes ->
  forall acc, Forall isConsoleLog (fst (extractEach extract nodes acc)).
Proof.
  induction 1 as [|n nodes Hn _ IH]; intros acc; cbn [extractEach]; [constructor|].
  unfold bind at 1. destruct (extract n) as [t [data|e]]; cbn [fst] in *; [|exact Hn].
  specialize (IH (match data with Some d => (acc ++ [d])%list | None => acc end)).
  destruct (extractEach extract nodes _) as [t' r]. cbn [fst] in *.
  apply Forall_app. split; assumption.
Qed.

Lemma extractNodeData_trace engine node :
  Forall isConsoleLog (fst (extractNodeData engine node)).
Proof.
  induction node as [node IH] using SceneNode_nested_ind.
  destruct node as [i n ty px py w h rot v cr fs ss sw pc st tx ch cs ce kids].
  cbn [extractNodeData node_children] in *.
  repeat match goal with
         | |- context [if ?c then _ else _] => destruct c
         end; try solve [unfold some, lift; cbn [fst]; constructor].
  - unfold extractContainerData. cbn [node_children].
    destruct kids as [l|]; [|cbn; constructor].
    specialize (IH l eq_refl).
    pose proof (extractEach_trace (extractNodeData engine) l IH []) as T.
    unfold bind. destruct (extractEach (extractNodeData engine) l []) as [t [res|e]];
      cbn in *; rewrite ?app_nil_r; exact T.
  - cbn. repeat constructor.
Qed.

(** X10. Whatever the page holds, [processSelection] answers the UI with
    exactly one message, posted last; everything it does before that is
    logging. *)
Theorem processSelection_posts_exactly_one_message engine page :
  exists t m,
    processSelection engine page = (t ++ [PostMessage m])%list
    /\ Forall isConsoleLog t.
Proof.
  unfold processSelection. destruct (page_selection page) as [|n rest].
  - exists [], (MsgError "Please select at least one object to export").
    split; [reflexivity | constructor].
  - pose proof (extractEach_trace (extractNodeData engine) (n :: rest)
                  ltac:(apply Forall_forall; intros; apply extractNodeData_trace) []) as T.
    destruct (extractEach (extractNodeData engine) (n :: rest) []) as [t [res|e]];
      cbn [fst] in T; eexists t, _; split; try reflexivity; exact T.
Qed.

Lemma extractEach_outcome (extract : SceneNode -> M (option ExtractedNodeData)) :
  (forall n t, extract n <> (t, Ok None)) ->
  forall nodes acc,
    (exists t ds, extractEach extract nodes acc = (t, Ok (acc ++ ds)%list)
                  /\ Forall2 (fun n d => exists t', extract n = (t', Ok (Some d))) nodes ds)
    \/ (exists t n t' e, extractEach extract nodes acc = (t, Throw e)
                         /\ In n nodes /\ extract n = (t', Throw e)).
Proof.
  intros NN. induction nodes as [|n nodes IH]; intros acc.
  - left. exists [], []. cbn. rewrite app_nil_r. split; constructor.
  - cbn [extractEach]. unfold bind.
    destruct (extract n) as [t1 [[d|]|e]] eqn:En.
    + destruct (IH (acc ++ [d])%list) as [(t & ds & E & F) | (t & n' & t' & e & E & I & X)].
      * left. exists (t1 ++ t)%list, (d :: ds). rewrite E, <- app_assoc.
        split; [reflexivity|]. constructor; [eauto | exact F].
      * right. exists (t1 ++ t)%list, n', t', e. rewrite E.
        split; [reflexivity|]. split; [right; exact I | exact X].
    + exfalso. exact (NN _ _ En).
    + right. exists t1, n, t1, e. split; [reflexivity|]. split; [left; reflexivity | exact En].
Qed.

(** X11. The export of a non-empty selection is all or nothing. Either
    every selected node is extracted and the one message posted is the data
    message with one record per node, in order; or the extraction of some
    selected node throws, and the one message posted is the error message
    that quotes that error, with no data sent at all. *)
Theorem processSelection_all_or_nothing engine page :
  page_selection page <> [] ->
  (exists t ds,
     processSelection engine page
       = (t ++ [PostMessage (MsgDataReady ds (pageInfoOf page))])%list
     /\ Forall2 (extractsTo engine) (page_selection page) ds)
  \/ (exists t n t' e,
        In n (page_selection page)
        /\ extractNodeData engine n = (t', Throw e)
        /\ processSelection engine page
           = (t ++ [PostMessage
                      (MsgError ("Error processing selection: " ++ errorToString e))])%list).
Proof.
  intros NE. unfold processSelection.
  destruct (extractEach_outcome _ (extractNodeData_not_null engine) (page_selection page) [])
    as [(t & ds & E & F) | (t & n & t' & e & E & I & X)];
    rewrite E; destruct (page_selection page) as [|n0 rest]; try contradiction.
  - left. exists t, ds. split; [reflexivity | exact F].
  - right. exists t, n, t', e. repeat split; assumption.
Qed.

Lemma processSelection_all_or_nothing_witness :
  page_selection scenarioPage <> []
  /\ ((exists t ds,
         processSelection sampleEngine scenarioPage
           = (t ++ [PostMessage (MsgDataReady ds (pageInfoOf scenarioPage))])%list
         /\ Forall2 (extractsTo sampleEngine) (page_selection scenarioPage) ds)
      \/ (exists t n t' e,
            In n (page_selection scenarioPage)
            /\ extractNodeData sampleEngine n = (t', Throw e)
            /\ processSelection sampleEngine scenarioPage
               = (t ++ [PostMessage
                          (MsgError ("Error processing selection: "
                                     ++ errorToString e))])%list)).
Proof.
  assert (NE : page_selection scenarioPage <> []) by discriminate.
  split; [exact NE|].
  exact (processSelection_all_or_nothing sampleEngine scenarioPage NE).
Defined.

(** X12. A Group or Frame is extracted all or nothing as well: either the
    record has one child record per host child, in order, or extraction
    throws, because the node has no [children] member or because the
    extraction of one of its children throws that same error. *)
Theorem container_all_or_nothing engine node :
  node_type node = "GROUP" \/ node_type node = "FRAME" ->
  (exists t d cs ds,
     extractNodeData engine node = (t, Ok (Some d))
     /\ node_children node = Some cs /\ children d = Some ds
     /\ Forall2 (extractsTo engine) cs ds)
  \/ (exists t e,
        extractNodeData engine node = (t, Throw e)
        /\ (node_children node = None
            \/ exists cs c t', node_children node = Some cs /\ In c cs
                               /\ extractNodeData engine c = (t', Throw e))).
Proof.
  intros Ty.
  destruct node as [i n ty px py w h rot v cr fs ss sw pc st tx ch cs ce kids].
  cbn [node_type node_children] in *.
  assert (X : extractNodeData engine
                (mkSceneNode i n ty px py w h rot v cr fs ss sw pc st tx ch cs ce kids)
              = bind (extractContainerData (extractNodeData engine)
                        (mkSceneNode i n ty px py w h rot v cr fs ss sw pc st tx ch cs ce kids)
                        (baseDataOf
                           (mkSceneNode i n ty px py w h rot v cr fs ss sw pc st tx ch cs ce kids)))
                     (fun data => ret (Some data))).
  { cbn [extractNodeData node_type]. destruct Ty as [-> | ->]; reflexivity. }
  rewrite X. clear X. unfold extractContainerData. cbn [node_children].
  destruct kids as [l|].
  - destruct (extractEach_outcome _ (extractNodeData_not_null engine) l [])
      as [(t & ds & E & F) | (t & c & t' & e & E & I & Xc)];
      unfold bind at 2; rewrite E; cbn.
    + left. do 4 eexists. split; [reflexivity|]. split; [reflexivity|].
      split; [reflexivity | exact F].
    + right. exists t, e. split; [reflexivity|]. right. exists l, c, t'.
      repeat split; assumption.
  - right. eexists _, _. split; [reflexivity | left; reflexivity].
Qed.

Lemma container_all_or_nothing_witness :
  (node_type (blankNode "FRAME") = "GROUP" \/ node_type (blankNode "FRAME") = "FRAME")
  /\ exists t e, extractNodeData sampleEngine (blankNode "FRAME") = (t, Throw e).
Proof.
  assert (Ty : node_type (blankNode "FRAME") = "GROUP"
               \/ node_type (blankNode "FRAME") = "FRAME") by (right; reflexivity).
  split; [exact Ty|].
  destruct (container_all_or_nothing sampleEngine (blankNode "FRAME") Ty)
    as [(t & d & cs & ds & E & C & _) | (t & e & E & _)].
  - discriminate C.
  - exists t, e. exact E.
Defined.

(** X13. The coordinates of the two endpoints of an extracted connector
    are never NaN and never -0: an endpoint without position, or with a
    coordinate that is 0, -0 or NaN, gets the coordinate 0. *)
Theorem extractConnectorData_coordinates_are_numbers connector baseData d :
  extractConnectorData connector baseData = Ok d ->
  exists s e,
    connectorStart d = Some s /\ connectorEnd d = Some e
    /\ Forall (fun v => v <> S754_nan /\ v <> S754_zero true)
         [ep_x s; ep_y s; ep_x e; ep_y e]
    /\ (forall ce, node_connectorStart connector = Some ce ->
        endpoint_position ce = None -> ep_x s = ofZ 0 /\ ep_y s = ofZ 0)
    /\ (forall ce, node_connectorEnd connector = Some ce ->
        endpoint_position ce = None -> ep_x e = ofZ 0 /\ ep_y e = ofZ 0).
Proof.
  assert (D : forall v, orDefault v (ofZ 0) <> S754_nan
                        /\ orDefault v (ofZ 0) <> S754_zero true).
  { intros v. unfold orDefault. destruct v as [[|]| [|] | |s m e]; cbn; split; discriminate. }
  assert (P : forall o member p, extractEndpoint o member = Ok p ->
                (ep_x p <> S754_nan /\ ep_x p <> S754_zero true)
                /\ (ep_y p <> S754_nan /\ ep_y p <> S754_zero true)
                /\ (forall ce, o = Some ce -> endpoint_position ce = None ->
                    ep_x p = ofZ 0 /\ ep_y p = ofZ 0)).
  { intros o member p E. unfold extractEndpoint in E.
    destruct o as [ce|]; [|discriminate E]. injection E as <-. cbn [ep_x ep_y].
    split; [|split].
    - destruct (endpoint_position ce); [apply D | split; discriminate].
    - destruct (endpoint_position ce); [apply D | split; discriminate].
    - intros ce' Hce N. injection Hce as <-. rewrite N. split; reflexivity. }
  intros E. unfold extractConnectorData in E. break_res E. injection E as <-.
  match goal with
  | H1 : extractEndpoint (node_connectorStart connector) _ = Ok ?s,
    H2 : extractEndpoint (node_connectorEnd connector) _ = Ok ?e |- _ =>
      exists s, e; destruct (P _ _ _ H1) as (X1 & Y1 & Z1);
      destruct (P _ _ _ H2) as (X2 & Y2 & Z2)
  end.
  split; [reflexivity|]. split; [reflexivity|].
  split; [repeat constructor; tauto|]. split; assumption.
Qed.

Lemma extractConnectorData_coordinates_are_numbers_witness :
  exists s e,
    connectorStart
      (withConnector (withStrokeWeight (withStrokes (blankExtracted "CONNECTOR") []) None)
         {| ep_x := ofZ 0; ep_y := ofZ 0; ep_endpointNodeId := None |}
         {| ep_x := ofZ 0; ep_y := ofZ 0; ep_endpointNodeId := Some "1:5" |}) = Some s
    /\ connectorEnd
         (withConnector (withStrokeWeight (withStrokes (blankExtracted "CONNECTOR") []) None)
            {| ep_x := ofZ 0; ep_y := ofZ 0; ep_endpointNodeId := None |}
            {| ep_x := ofZ 0; ep_y := ofZ 0; ep_endpointNodeId := Some "1:5" |}) = Some e
    /\ Forall (fun v => v <> S754_nan /\ v <> S754_zero true)
         [ep_x s; ep_y s; ep_x e; ep_y e].
Proof.
  destruct (extractConnectorData_coordinates_are_numbers
              (mkSceneNode "1:1" "Node" "CONNECTOR" (ofZ 0) (ofZ 0) (Some (ofZ 10))
                 (Some (ofZ 10)) (Some (ofZ 0)) true None None None None None None None None
                 (Some {| endpoint_position := Some {| vx := S754_nan; vy := S754_zero true |};
                          endpoint_endpointNodeId := None |})
                 (Some {| endpoint_position := None;
                          endpoint_endpointNodeId := Some "1:5" |})
                 None)
              (blankExtracted "CONNECTOR")
              _ eq_refl)
    as (s & e & S & E & F & _).
  exists s, e. repeat split; assumption.
Defined.

(** ** Further properties: the two exports side by side *)

(** X14. Whenever the JSON shape record of a node has a stroke, the stroke
    element of the XML export of the same node carries the same weight. *)
Theorem stroke_weight_agrees_between_exports engine spaces node s :
  shape_stroke (nodeToShape node) = Some s ->
  strokeWeight node = Some (stroke_width s)
  /\ exists rest,
       strokeToXML engine spaces node
       = spaces ++ "  <stroke " ++ attr "weight" (numberToString engine (stroke_width s))
           ++ ">" ++ nl ++ rest.
Proof.
  unfold nodeToShape, strokeToXML, num. cbn [shape_stroke].
  destruct (strokes node) as [[|p rest]|]; try discriminate.
  destruct (strokeWeight node) as [w|]; [|discriminate].
  destruct (truthy w) eqn:T; [|discriminate].
  destruct p; try discriminate. intros E. injection E as <-. cbn [stroke_width].
  split; [reflexivity|].
  unfold strokeWeightOrOne, orDefault. rewrite T. eexists. reflexivity.
Qed.

Lemma stroke_weight_agrees_between_exports_witness :
  shape_stroke
    (nodeToShape (withStrokeWeight (withStrokes (blankExtracted "RECTANGLE")
                                      [Solid white (ofZ 1)]) (Some (ofZ 3))))
    = Some {| stroke_color := white; stroke_width := ofZ 3; stroke_opacity := Some (ofZ 1) |}
  /\ strokeWeight (withStrokeWeight (withStrokes (blankExtracted "RECTANGLE")
                                       [Solid white (ofZ 1)]) (Some (ofZ 3)))
     = Some (ofZ 3).
Proof.
  split; [reflexivity|].
  exact (proj1 (stroke_weight_agrees_between_exports sampleEngine ""
                  (withStrokeWeight (withStrokes (blankExtracted "RECTANGLE")
                                       [Solid white (ofZ 1)]) (Some (ofZ 3)))
                  _ eq_refl)).
Defined.

(** X15. The two exports agree on the text of a node. A text that is set
    and not empty is copied to the JSON shape record and written to the
    XML export inside a CDATA block, character for character and without
    escaping; a node without text, or with an empty text, has no text in
    the record and no text element. *)
Theorem text_agrees_between_exports spaces node :
  (forall t, shape_text (nodeToShape node) = Some t ->
     text node = Some t
     /\ textToXML spaces node
        = spaces ++ "  <text><![CDATA[" ++ t ++ "]]></text>" ++ nl)
  /\ (shape_text (nodeToShape node) = None ->
      textToXML spaces node = EmptyString)
  /\ (shape_text (nodeToShape node) = None
      <-> text node = None \/ text node = Some EmptyString).
Proof.
  unfold nodeToShape, textToXML. cbn [shape_text].
  destruct (text node) as [[|c t]|]; cbn [truthyString].
  - split; [intros t H; discriminate H|]. split; [reflexivity|]. split; tauto.
  - split; [intros t' H; injection H as <-; split; reflexivity|].
    split; [intros H; discriminate H|].
    split; [intros H; discriminate H | intros [H|H]; discriminate H].
  - split; [intros t H; discriminate H|]. split; [reflexivity|]. split; tauto.
Qed.

Lemma text_agrees_between_exports_witness :
  shape_text (nodeToShape (withText (blankExtracted "TEXT") (Some "a < b"))) = Some "a < b"
  /\ textToXML "" (withText (blankExtracted "TEXT") (Some "a < b"))
     = "" ++ "  <text><![CDATA[" ++ "a < b" ++ "]]></text>" ++ nl.
Proof.
  split; [reflexivity|].
  exact (proj2 (proj1 (text_agrees_between_exports ""
                         (withText (blankExtracted "TEXT") (Some "a < b")))
                  _ eq_refl)).
Defined.

(** X16. The XML export never writes the opacity of a first solid fill as
    0 or NaN: such an opacity is written as 1, whereas the JSON shape
    record keeps the opacity the paint has. *)
Theorem zero_fill_opacity_is_written_as_one engine spaces node c o rest :
  fills node = Some (Solid c o :: rest) -> truthy o = false ->
  (exists f, shape_fill (nodeToShape node) = Some f /\ fill_opacity f = Some o)
  /\ fillToXML engine spaces node
     = spaces ++ "  <fill>" ++ nl
       ++ (spaces ++ "    <solid " ++ attr "r" (numberToString engine (r c))
             ++ " " ++ attr "g" (numberToString engine (g c))
             ++ " " ++ attr "b" (numberToString engine (b c))
             ++ " " ++ attr "opacity" (numberToString engine (ofZ 1)) ++ "/>" ++ nl)
       ++ spaces ++ "  </fill>" ++ nl.
Proof.
  intros F T. unfold nodeToShape, fillToXML, num, orDefault. cbn [shape_fill].
  rewrite F, T. split; [eexists; split; reflexivity | reflexivity].
Qed.

Lemma zero_fill_opacity_is_written_as_one_witness :
  (fills (withFills (blankExtracted "RECTANGLE") [Solid white (ofZ 0)])
   = Some [Solid white (ofZ 0)] /\ truthy (ofZ 0) = false)
  /\ exists f,
       shape_fill (nodeToShape (withFills (blankExtracted "RECTANGLE") [Solid white (ofZ 0)]))
         = Some f
       /\ fill_opacity f = Some (ofZ 0).
Proof.
  split; [split; reflexivity|].
  exact (proj1 (zero_fill_opacity_is_written_as_one sampleEngine ""
                  (withFills (blankExtracted "RECTANGLE") [Solid white (ofZ 0)])
                  white (ofZ 0) [] eq_refl eq_refl)).
Defined.

(** ** Further properties: [rgbToHex] *)

Lemma hexPair_byte x :
  (x < 256)%N ->
  exists c1 c2,
    hexPair x = String c1 (String c2 EmptyString)
    /\ hexField 0 (String c1 (String c2 EmptyString)) = Some x.
Proof.
  intros Hx.
  assert (A : forallb (fun n =>
                         match hexPair (N.of_nat n) with
                         | String c1 (String c2 EmptyString) =>
                             match hexField 0 (String c1 (String c2 EmptyString)) with
                             | Some y => N.eqb y (N.of_nat n)
                             | None => false
                             end
                         | _ => false
                         end) (seq 0 256) = true) by (vm_compute; reflexivity).
  rewrite forallb_forall in A. specialize (A (N.to_nat x)).
  rewrite N2Nat.id in A.
  assert (I : In (N.to_nat x) (seq 0 256)) by (apply in_seq; lia).
  specialize (A I).
  destruct (hexPair x) as [|c1 [|c2 [|c3 s]]]; try discriminate A.
  exists c1, c2. split; [reflexivity|].
  destruct (hexField 0 (String c1 (String c2 EmptyString))) as [y|]; [|discriminate A].
  apply N.eqb_eq in A. congruence.
Qed.

(** X17. For three channels below 256, [rgbToHex] returns seven
    characters: [#] followed by two hexadecimal digits per channel, from
    which each channel can be read back. *)
Theorem rgbToHex_round_trip r g b :
  (r < 256)%N -> (g < 256)%N -> (b < 256)%N ->
  String.length (rgbToHex r g b) = 7%nat
  /\ substring 0 1 (rgbToHex r g b) = "#"
  /\ hexField 1 (rgbToHex r g b) = Some r
  /\ hexField 3 (rgbToHex r g b) = Some g
  /\ hexField 5 (rgbToHex r g b) = Some b.
Proof.
  intros Hr Hg Hb.
  destruct (hexPair_byte r Hr) as (r1 & r2 & Er & Pr).
  destruct (hexPair_byte g Hg) as (g1 & g2 & Eg & Pg).
  destruct (hexPair_byte b Hb) as (b1 & b2 & Eb & Pb).
  unfold rgbToHex. cbn [map String.concat]. rewrite Er, Eg, Eb.
  repeat split; assumption.
Qed.

Lemma rgbToHex_round_trip_witness :
  ((255 < 256)%N /\ (99 < 256)%N /\ (5 < 256)%N)
  /\ rgbToHex 255 99 5 = "#ff6305"
  /\ hexField 3 (rgbToHex 255 99 5) = Some 99%N.
Proof.
  assert (A : (255 < 256)%N) by reflexivity.
  assert (B : (99 < 256)%N) by reflexivity.
  assert (C : (5 < 256)%N) by reflexivity.
  split; [repeat split; assumption|]. split; [reflexivity|].
  exact (proj1 (proj2 (proj2 (proj2 (rgbToHex_round_trip 255 99 5 A B C))))).
Defined.

(** ** Further properties: the extracted tree *)

Lemma container_inv engine node t d :
  ((node_type node =? "GROUP") || (node_type node =? "FRAME"))%string = true ->
  extractNodeData engine node = (t, Ok (Some d)) ->
  exists cs ds,
    node_children node = Some cs /\ children d = Some ds
    /\ Forall2 (extractsTo engine) cs ds.
Proof.
  intros Ty E.
  destruct node as [i n ty px py w h rot v cr fs ss sw pc st tx ch cs ce kids].
  cbn [node_type node_children] in *.
  assert (X : extractNodeData engine
                (mkSceneNode i n ty px py w h rot v cr fs ss sw pc st tx ch cs ce kids)
              = bind (extractContainerData (extractNodeData engine)
                        (mkSceneNode i n ty px py w h rot v cr fs ss sw pc st tx ch cs ce kids)
                        (baseDataOf
                           (mkSceneNode i n ty px py w h rot v cr fs ss sw pc st tx ch cs ce kids)))
                     (fun data => ret (Some data))).
  { cbn [extractNodeData node_type]. apply orb_true_iff in Ty as [Ty|Ty];
      apply String.eqb_eq in Ty; subst ty; reflexivity. }
  rewrite X in E. clear X. unfold extractContainerData in E. cbn [node_children] in E.
  destruct kids as [l|]; [|discriminate E].
  unfold bind at 2 in E.
  destruct (extractEach (extractNodeData engine) l []) as [t1 [res|e]] eqn:E1;
    [|discriminate E].
  cbn in E. injection E as _ <-.
  destruct (extractEach_inv _ (extractNodeData_not_null engine) _ _ _ _ E1) as (ds' & -> & F).
  exists l, ds'. split; [reflexivity|]. split; [reflexivity | exact F].
Qed.

Lemma extractedSize_eq d :
  extractedSize d
  = S (match children d with
       | Some ds => list_sum (map extractedSize ds)
       | None => 0
       end).
Proof. destruct d; reflexivity. Qed.

Lemma hostSize_eq n :
  hostSize n
  = S (if ((node_type n =? "GROUP") || (node_type n =? "FRAME"))%string
       then match node_children n with
            | Some cs => list_sum (map hostSize cs)
            | None => 0
            end
       else 0).
Proof. destruct n; reflexivity. Qed.

(** X18. Extraction keeps the shape of the tree at every depth: the
    extracted tree has exactly one record for the host node and for each
    node below it that is reached through the children of Groups and
    Frames. *)
Theorem extractNodeData_keeps_tree_size engine node t d :
  extractNodeData engine node = (t, Ok (Some d)) ->
  extractedSize d = hostSize node.
Proof.
  revert t d. induction node as [node IH] using SceneNode_nested_ind. intros t d E.
  destruct ((node_type node =? "GROUP") || (node_type node =? "FRAME"))%string eqn:C.
  - destruct (container_inv _ _ _ _ C E) as (cs & ds & Hc & Hd & F).
    specialize (IH cs Hc).
    assert (S : list_sum (map extractedSize ds) = list_sum (map hostSize cs)).
    { clear Hc Hd. induction F as [|c d' cs ds [t' Ec] _ IHF]; [reflexivity|].
      inversion IH as [|? ? Hc' Hcs]; subst. specialize (IHF Hcs).
      cbn [map]. unfold list_sum in *. cbn [fold_right].
      rewrite (Hc' _ _ Ec), IHF. reflexivity. }
    rewrite extractedSize_eq, hostSize_eq, C, Hc, Hd, S. reflexivity.
  - destruct (extractNodeData_shape _ _ _ _ E)
      as (fs & ss & sw & tx & cr & st & cs & ce & kids & -> & _ & _ & _ & _ & Hk).
    rewrite C in Hk. destruct kids; [discriminate Hk|].
    rewrite extractedSize_eq, hostSize_eq, C. reflexivity.
Qed.

Lemma extractNodeData_keeps_tree_size_witness :
  extractNodeData sampleEngine
    (mkSceneNode "1:9" "Frame" "FRAME" (ofZ 0) (ofZ 0) (Some (ofZ 10)) (Some (ofZ 10))
       (Some (ofZ 0)) true None None None None None None None None None None
       (Some [blankNode "STAR"; scenarioRectangle]))
    = ([ConsoleLog "Unsupported node type: STAR"],
       Ok (Some (withChildren
                   (emptyVariant "1:9" "Frame" "FRAME" (ofZ 0) (ofZ 0) (ofZ 10) (ofZ 10)
                      (ofZ 0) true)
                   [blankExtracted "STAR";
                    withStrokeWeight
                      (withStrokes
                         (withFills
                            (withCornerRadius (baseDataOf scenarioRectangle) (Some (ofZ 8)))
                            [Solid {| r := ofZ 255; g := ofZ 99; b := ofZ 51 |} (ofZ 1)])
                         [])
                      (Some (ofZ 1))])))
  /\ extractedSize
       (withChildren
          (emptyVariant "1:9" "Frame" "FRAME" (ofZ 0) (ofZ 0) (ofZ 10) (ofZ 10)
             (ofZ 0) true)
          [blankExtracted "STAR";
           withStrokeWeight
             (withStrokes
                (withFills
                   (withCornerRadius (baseDataOf scenarioRectangle) (Some (ofZ 8)))
                   [Solid {| r := ofZ 255; g := ofZ 99; b := ofZ 51 |} (ofZ 1)])
                [])
             (Some (ofZ 1))])
     = 3%nat.
Proof.
  assert (E : extractNodeData sampleEngine
    (mkSceneNode "1:9" "Frame" "FRAME" (ofZ 0) (ofZ 0) (Some (ofZ 10)) (Some (ofZ 10))
       (Some (ofZ 0)) true None None None None None None None None None None
       (Some [blankNode "STAR"; scenarioRectangle]))
    = ([ConsoleLog "Unsupported node type: STAR"],
       Ok (Some (withChildren
                   (emptyVariant "1:9" "Frame" "FRAME" (ofZ 0) (ofZ 0) (ofZ 10) (ofZ 10)
                      (ofZ 0) true)
                   [blankExtracted "STAR";
                    withStrokeWeight
                      (withStrokes
                         (withFills
                            (withCornerRadius (baseDataOf scenarioRectangle) (Some (ofZ 8)))
                            [Solid {| r := ofZ 255; g := ofZ 99; b := ofZ 51 |} (ofZ 1)])
                         [])
                      (Some (ofZ 1))]))))
    by (vm_compute; reflexivity).
  split; [exact E|].
  exact (extractNodeData_keeps_tree_size _ _ _ _ E).
Defined.

(** ** The claim about XML escaping *)

Lemma escapeEach_plain s : plainText s = true -> escapeEach s = s.
Proof.
  unfold plainText. induction s as [|c s IH]; [reflexivity|].
  cbn [allChars escapeEach]. intros H. apply andb_true_iff in H as [Hc Hs].
  rewrite (IH Hs).
  destruct (escapeChar_cases c) as [[-> | [-> | [-> | [-> | ->]]]] | (_ & -> & _)];
    try discriminate Hc.
  reflexivity.
Qed.

Lemma hostGradientType_plain t :
  existsb (String.eqb t) hostGradientTypes = true -> escapeEach t = t.
Proof.
  intros H. apply existsb_exists in H as (k & Hk & E).
  apply String.eqb_eq in E. subst k. cbn [hostGradientTypes In] in Hk.
  destruct Hk as [<- | [<- | [<- | [<- | []]]]]; reflexivity.
Qed.

Lemma ownProperty_truthy t v : ownProperty mapping t = Some v -> truthyString v = true.
Proof.
  cbn [mapping ownProperty].
  repeat match goal with
         | |- context [(?k =? t)%string] => destruct (k =? t)%string
         end;
    intros H; try discriminate H; injection H as <-; reflexivity.
Qed.

Lemma mapNodeTypeToPPTX_mappedName t :
  existsb (String.eqb t) objectPrototypeKeys = false ->
  mapNodeTypeToPPTX t = Str (mappedName t).
Proof.
  intros H. unfold mapNodeTypeToPPTX, mappedName. rewrite H.
  destruct (ownProperty mapping t) as [v|] eqn:O; [|reflexivity].
  rewrite (ownProperty_truthy _ _ O). reflexivity.
Qed.

Lemma ExtractedNodeData_nested_ind (P : ExtractedNodeData -> Prop) :
  (forall node, (forall cs, children node = Some cs -> Forall P cs) -> P node) ->
  forall node, P node.
Proof.
  intros H. fix IH 1. intros node. apply H.
  destruct node as [i n t px py w h rot v fs ss sw tx cr st cs ce kids].
  cbn [children]. intros l E.
  destruct kids as [l'|]; [|discriminate E]. injection E as <-.
  induction l' as [|c l' IHl]; constructor; [apply IH | exact IHl].
Qed.

Lemma tagsFromHost_eq node :
  tagsFromHost node
  = negb (existsb (String.eqb (type node)) objectPrototypeKeys)
    && match fills node with
       | Some fs => forallb hostGradient fs
       | None => true
       end
    && match children node with
       | Some cs => forallb tagsFromHost cs
       | None => true
       end.
Proof. destruct node; reflexivity. Qed.

Lemma nodeToXML_eq engine node indent :
  nodeToXML engine node indent
  = shapeHead engine (repeat "  " indent) node
    ++ match children node with
       | Some (c :: cs) =>
           repeat "  " indent ++ "  <group>" ++ nl
           ++ String.concat ""
                (map (fun child => nodeToXML engine child (indent + 2)) (c :: cs))
           ++ repeat "  " indent ++ "  </group>" ++ nl
       | _ => ""
       end
    ++ repeat "  " indent ++ "</shape>" ++ nl.
Proof. destruct node; reflexivity. Qed.

Lemma escapedNodeToXML_eq engine node indent :
  escapedNodeToXML engine node indent
  = escapedShapeHead engine (repeat "  " indent) node
    ++ match children node with
       | Some (c :: cs) =>
           repeat "  " indent ++ "  <group>" ++ nl
           ++ String.concat ""
                (map (fun child => escapedNodeToXML engine child (indent + 2)) (c :: cs))
           ++ repeat "  " indent ++ "  </group>" ++ nl
       | _ => ""
       end
    ++ repeat "  " indent ++ "</shape>" ++ nl.
Proof. destruct node; reflexivity. Qed.

Lemma fillToXML_escaped engine spaces node :
  match fills node with
  | Some fs => forallb hostGradient fs
  | None => true
  end = true ->
  fillToXML engine spaces node = escapedFillToXML engine spaces node.
Proof.
  unfold fillToXML, escapedFillToXML.
  destruct (fills node) as [[|fill rest]|]; try reflexivity.
  cbn [forallb]. intros H. apply andb_true_iff in H as [H _].
  destruct fill; try reflexivity.
  cbn [hostGradient] in H. rewrite (hostGradientType_plain _ H). reflexivity.
Qed.

Lemma textToXML_escaped spaces node :
  textToXML spaces node = escapedTextToXML spaces node.
Proof.
  unfold textToXML, escapedTextToXML. destruct (text node) as [[|c t]|]; reflexivity.
Qed.

Lemma propertiesToXML_escaped engine spaces node :
  propertiesToXML engine spaces node = escapedPropertiesToXML engine spaces node.
Proof.
  unfold propertiesToXML, escapedPropertiesToXML. cbn [escapeXML].
  destruct (cornerRadius node), (shapeTypeSet node);
    rewrite ?escapeString_escapeEach; reflexivity.
Qed.

Lemma shapeHead_escaped engine spaces node :
  existsb (String.eqb (type node)) objectPrototypeKeys = false ->
  match fills node with
  | Some fs => forallb hostGradient fs
  | None => true
  end = true ->
  shapeHead engine spaces node = escapedShapeHead engine spaces node.
Proof.
  intros T F. unfold shapeHead, escapedShapeHead.
  rewrite (mapNodeTypeToPPTX_mappedName _ T). cbn [escapeXML].
  rewrite !escapeString_escapeEach, (fillToXML_escaped _ _ _ F),
    textToXML_escaped, propertiesToXML_escaped.
  reflexivity.
Qed.

Lemma nodeToXML_escaped engine node :
  tagsFromHost node = true ->
  forall indent, nodeToXML engine node indent = escapedNodeToXML engine node indent.
Proof.
  induction node as [node IH] using ExtractedNodeData_nested_ind.
  rewrite tagsFromHost_eq. intros H indent.
  apply andb_true_iff in H as [H K]. apply andb_true_iff in H as [T F].
  apply negb_true_iff in T.
  rewrite nodeToXML_eq, escapedNodeToXML_eq, (shapeHead_escaped _ _ _ T F).
  destruct (children node) as [[|c cs]|]; try reflexivity.
  specialize (IH _ eq_refl). rewrite forallb_forall in K. rewrite Forall_forall in IH.
  assert (M : map (fun child => nodeToXML engine child (indent + 2)) (c :: cs)
              = map (fun child => escapedNodeToXML engine child (indent + 2)) (c :: cs)).
  { apply map_ext_in. intros child Hc. apply IH; [exact Hc | apply K, Hc]. }
  rewrite M. reflexivity.
Qed.

(** C8. Take a node tree whose tags are tags the host supplies (no type tag
    names a member inherited from [Object.prototype]; every gradient fill
    has one of the host's four gradient types) and an export timestamp
    without special character. Then the document [toXML] writes is the
    document in which every string written into an attribute value or an
    element body (timestamp, page name, mapped type, id, name, gradient
    type, shape type) has each [&], [<], [>], double quote and apostrophe
    replaced by its entity, once and only once, and every other character
    copied: [escapeXML] is that per-character replacement, the ampersand
    being replaced first. The text of a node is written as it is, without
    any replacement, between [<![CDATA[] and []]>]. *)
Theorem toXML_escapes_every_inserted_string engine now nodes pageInfo :
  plainText now = true ->
  forallb tagsFromHost nodes = true ->
  toXML engine now nodes pageInfo = escapedToXML engine now nodes pageInfo
  /\ (forall node indent,
        In node nodes -> nodeToXML engine node indent = escapedNodeToXML engine node indent)
  /\ (forall s,
        escapeXML engine (Str s)
        = replaceAll c_apos "&apos;"
            (replaceAll c_quot "&quot;"
               (replaceAll c_gt "&gt;"
                  (replaceAll c_lt "&lt;" (replaceAll c_amp "&amp;" s))))
        /\ escapeXML engine (Str s) = escapeEach s)
  /\ (forall spaces node c t,
        text node = Some (String c t) ->
        textToXML spaces node
        = spaces ++ "  <text><![CDATA[" ++ String c t ++ "]]></text>" ++ nl).
Proof.
  intros Hn Ht. rewrite forallb_forall in Ht. split; [|split; [|split]].
  - unfold toXML, escapedToXML. cbn [escapeXML].
    rewrite escapeString_escapeEach, (escapeEach_plain _ Hn).
    assert (M : map (fun node => nodeToXML engine node 2) nodes
                = map (fun node => escapedNodeToXML engine node 2) nodes).
    { apply map_ext_in. intros node Hin. apply nodeToXML_escaped, Ht, Hin. }
    rewrite M. reflexivity.
  - intros node indent Hin. apply nodeToXML_escaped, Ht, Hin.
  - intros s. split; [reflexivity | apply escapeString_escapeEach].
  - intros spaces node c t E. unfold textToXML. rewrite E. reflexivity.
Qed.

Lemma toXML_escapes_every_inserted_string_witness :
  (plainText "2026-11-03T09:30:00.000Z" = true
   /\ forallb tagsFromHost [taggedFrame] = true)
  /\ toXML sampleEngine "2026-11-03T09:30:00.000Z" [taggedFrame] (pageInfoOf scenarioPage)
     = escapedToXML sampleEngine "2026-11-03T09:30:00.000Z" [taggedFrame]
         (pageInfoOf scenarioPage).
Proof.
  assert (A : plainText "2026-11-03T09:30:00.000Z" = true) by reflexivity.
  assert (B : forallb tagsFromHost [taggedFrame] = true) by reflexivity.
  split; [split; assumption|].
  exact (proj1 (toXML_escapes_every_inserted_string sampleEngine _ [taggedFrame]
                  (pageInfoOf scenarioPage) A B)).
Defined.
